(** * measure_shards_size.py: shard size report of an InfluxDB instance

    A shallow embedding of [Client._parse_du], [Client._get_all_shards_size],
    [Client._get_shard_size], [Client._size] and [Client.shards], and the
    properties of the report they produce.

    Python semantics followed: Python 3 ([str] lines, [re] on [str] patterns,
    [round] to nearest with ties to even, [repr] of a float).  A [str] is a
    [string] whose characters are code points below 256.

    The remote session, the query and the command line are outside the
    model: the lines that the remote command wrote and the groups that the
    query returned are the inputs.  Of the log, the records about shards
    missing from the file system are kept. *)

From Stdlib Require Import ZArith String Ascii List Lia Bool DecimalString DecimalN.
From stdpp Require Import gmap strings list.

Local Open Scope string_scope.
Local Open Scope Z_scope.

(** ** Exceptions *)

(** The exceptions the modelled code can raise. *)
Inductive exn : Set :=
| AttributeError      (* [r.group] on [None] *)
| IndexError          (* tuple index out of range, [group[0]] on an empty list *)
| OverflowError       (* [math.pow] out of range, int too large for a float *)
| ValueError          (* [math.log] of a negative number *)
| UnboundLocalError.  (* local variable read before assignment *)

(** A call either returns a value or raises. *)
Inductive result (A : Type) : Type :=
| Returns (a : A)
| Raises (e : exn).
Arguments Returns {A} a.
Arguments Raises {A} e.

#[global] Instance result_ret : MRet result := fun A a => Returns a.
#[global] Instance result_bind : MBind result := fun A B f r =>
  match r with
  | Returns a => f a
  | Raises e => Raises e
  end.

(** ** The fragment of [re] used by [_parse_du] *)

Module Re.

(** Character classes of the pattern. *)
Definition code (c : ascii) : N := N_of_ascii c.

(** [[0-9]] *)
Definition digit (c : ascii) : bool := ((48 <=? code c) && (code c <=? 57))%N.

(** [\s] of a [str] pattern: the code points below 256 for which
    [str.isspace] holds. *)
Definition space (c : ascii) : bool :=
  (((9 <=? code c) && (code c <=? 13)) || ((28 <=? code c) && (code c <=? 32))
   || (code c =? 133) || (code c =? 160))%N.

(** [.] without DOTALL: anything but a newline. *)
Definition dot (c : ascii) : bool := negb (code c =? 10)%N.

(** A pattern is a sequence of nodes: a literal character, or a greedy
    repetition of a character class ([cls*], or [cls+] when [least_one]),
    inside a capturing group when [capture]. *)
Inductive node : Type :=
| Lit (c : ascii)
| Rep (cls : ascii -> bool) (least_one capture : bool).

Section Backtracking.
Context {R : Type}.

(** Greedy repetition: take characters of the class as long as possible,
    then give them back one at a time until the continuation [k]
    succeeds.  [taken] is the text matched so far. *)
Fixpoint greedy (cls : ascii -> bool) (k : string -> string -> option R)
         (taken rest : string) : option R :=
  match rest with
  | String c rest' =>
      if cls c then
        match greedy cls k (taken ++ String c "") rest' with
        | Some r => Some r
        | None => k taken rest
        end
      else k taken rest
  | EmptyString => k taken rest
  end.
End Backtracking.

(** [run pat groups s]: match [pat] at the start of [s]; the result is the
    list of captured groups, in order. *)
Fixpoint run (pat : list node) (groups : list string) (s : string)
  : option (list string) :=
  match pat with
  | [] => Some groups
  | Lit c :: pat' =>
      match s with
      | String c' s' => if Ascii.eqb c c' then run pat' groups s' else None
      | EmptyString => None
      end
  | Rep cls least_one capture :: pat' =>
      let k taken rest :=
        run pat' (if capture then groups ++ [taken] else groups) rest in
      if least_one then
        match s with
        | String c s' => if cls c then greedy cls k (String c "") s' else None
        | EmptyString => None
        end
      else greedy cls k "" s
  end.

(** [re.match(pattern, s)]: anchored at the start, not at the end. *)
Definition re_match (pat : list node) (s : string) : option (list string) :=
  run pat [] s.

End Re.

(** ** [_parse_du] *)

(** [int(s)] for a string of decimal digits. *)
Definition digit_value (c : ascii) : Z := Z.of_N (Re.code c) - 48.

Fixpoint int_digits (acc : Z) (s : string) : Z :=
  match s with
  | EmptyString => acc
  | String c s' => int_digits (10 * acc + digit_value c) s'
  end.

Definition py_int (s : string) : Z := int_digits 0 s.

(** [re.compile(r"([0-9]+)\s+.*/([0-9]+)")] *)
Definition regexp : list Re.node :=
  [ Re.Rep Re.digit true true;
    Re.Rep Re.space true false;
    Re.Rep Re.dot false false;
    Re.Lit "/";
    Re.Rep Re.digit true true ].

(** [_parse_du(line)]: the shard id and its size; [r] is [None] when the
    line does not match, and [r.group] then raises. *)
Definition _parse_du (line : string) : result (Z * Z) :=
  match Re.re_match regexp line with
  | Some [g1; g2] => Returns (py_int g2, py_int g1)
  | _ => Raises AttributeError
  end.

(** ** [_get_all_shards_size] *)

(** The loop over [stdout.readlines()]: every line goes through [_parse_du]
    and is stored in the dict; nothing catches what [_parse_du] raises. *)
Fixpoint collect_lines (lines : list string) (shards_size_list : gmap Z Z)
  : result (gmap Z Z) :=
  match lines with
  | [] => Returns shards_size_list
  | line :: lines' =>
      '(shard_id, size_bytes) ← _parse_du line;
      collect_lines lines' (<[shard_id := size_bytes]> shards_size_list)
  end.

(** [_get_all_shards_size]: [stdout_lines] is what the remote command wrote;
    [self.shards_size_list] starts empty (set in [__init__]). *)
Definition _get_all_shards_size (stdout_lines : list string) : result (gmap Z Z) :=
  collect_lines stdout_lines ∅.

(** [_get_shard_size]: [dict.get], [None] for a missing key. *)
Definition _get_shard_size (shards_size_list : gmap Z Z) (shard_id : Z) : option Z :=
  shards_size_list !! shard_id.

(** ** [_size] *)

(** [size_name[i]] for [i >= 0]: a tuple index out of range raises. *)
Definition tuple_index {A : Type} (t : list A) (i : nat) : result A :=
  match t !! i with
  | Some a => Returns a
  | None => Raises IndexError
  end.

(** [math.pow(1024, i)]: the float [2^(10 i)], exact; out of the range of a
    binary64 float it raises ("math range error"). *)
Definition math_pow_1024 (i : nat) : result Z :=
  if 10 * Z.of_nat i <=? 1023 then Returns (2 ^ (10 * Z.of_nat i)) else Raises OverflowError.

(** Round [num / den] to the nearest integer, ties to the even one. *)
Definition round_half_even (num den : Z) : Z :=
  let q := num / den in
  let r := num mod den in
  if 2 * r <? den then q
  else if den <? 2 * r then q + 1
  else if Z.even q then q else q + 1.

(** The conversion of an int [n >= 1] to a float, as the division
    [size_bytes/p] makes it: the nearest binary64 value (53 significant bits,
    ties to even), given here by its integer value; it raises when the int is
    too large for a float. *)
Definition float_of_int (n : Z) : result Z :=
  let e := Z.log2 n - 52 in
  let f := if e <=? 0 then n else round_half_even n (2 ^ e) * 2 ^ e in
  if f <? 2 ^ 1024 then Returns f else Raises OverflowError.

(** [round(x / p, 2)] for the float [x] and the power of two [p]: the
    division is exact, and [round] gives the float nearest to the decimal
    with two places nearest to it (ties to even).  The result is given in
    hundredths. *)
Definition round2 (x p : Z) : Z := round_half_even (100 * x) p.

(** Decimal digits of a non-negative integer. *)
Definition decimal (n : Z) : string :=
  NilZero.string_of_uint (N.to_uint (Z.to_N n)).

(** ['%s' % s] for the float [s] of [hundredths / 100]: [repr] prints the
    shortest decimal that reads back as the same float, and always a
    fractional part ([1.0], [1.5], [1.12]).  This is what Python prints for
    values below [10^13]; larger quotients do not occur unless the unit index
    is off by four or more, and are not modelled further. *)
Definition float_repr (hundredths : Z) : string :=
  let f := hundredths mod 100 in
  decimal (hundredths / 100) ++ "." ++
  (if f mod 10 =? 0 then decimal (f / 10) else decimal (f / 10) ++ decimal (f mod 10)).

Definition size_name : list string :=
  ["B"; "KB"; "MB"; "GB"; "TB"; "PB"; "EB"; "ZB"; "YB"].

Section Size.

(** [int(math.floor(math.log(n, 1024)))] for an int [n >= 1].  [math.log]
    is computed by the C library on binary64 floats, so its floor is a
    parameter of the model.  It is not negative: the logarithm of a number
    from 1 on is at least [0.0] and that of 1024 is positive. *)
Variable log1024_floor : Z -> nat.

Definition _size (size_bytes : Z) : result string :=
  if size_bytes =? 0 then Returns "0B"
  else if size_bytes <? 0 then Raises ValueError (* math.log: domain error *)
  else
    let i := log1024_floor size_bytes in
    p ← math_pow_1024 i;
    x ← float_of_int size_bytes;
    let s := round2 x p in
    unit ← tuple_index size_name i;
    Returns (float_repr s ++ " " ++ unit).

End Size.

(** The exact logarithm: the largest [i] with [1024^i <= n]. *)
Definition exact_log1024_floor (n : Z) : nat := Z.to_nat (Z.log2 n / 10).

(** ** [shards] *)

(** A [datetime] as [strptime] returns it; two of them compare field by
    field, from the year down. *)
Record datetime : Set := Datetime
  { year : Z; month : Z; day : Z; hour : Z; minute : Z; second : Z }.

Definition lexico (c : comparison) (next : comparison) : comparison :=
  match c with
  | Eq => next
  | _ => c
  end.

Definition datetime_compare (a b : datetime) : comparison :=
  lexico (year a ?= year b)
    (lexico (month a ?= month b)
       (lexico (day a ?= day b)
          (lexico (hour a ?= hour b)
             (lexico (minute a ?= minute b) (second a ?= second b))))).

(** [a < b] and [a <= b] on datetimes. *)
Definition datetime_lt (a b : datetime) : bool :=
  match datetime_compare a b with
  | Lt => true
  | _ => false
  end.

Definition datetime_le (a b : datetime) : bool := negb (datetime_lt b a).

(** One point of the [SHOW SHARDS] result, with its two timestamps parsed. *)
Record ShardRecord : Set := Shard
  { shard_id : Z;             (* s.get("id") *)
    database : string;        (* s.get("database") *)
    start_time : datetime;    (* strptime(s.get("start_time"), ...) *)
    end_time : datetime }.    (* strptime(s.get("end_time"), ...) *)

(** What a per-database line reports: the database and its bytes. *)
Record DatabaseSizeResult : Set := DatabaseSize
  { result_database : string; total_bytes : Z }.

(** A line written by [print]. *)
Inductive printed_line : Set :=
| PerDatabase (size_text db : string)   (* "%s: %s" *)
| Total (size_text : string).           (* "TOTAL: %s" *)

Definition render (l : printed_line) : string :=
  match l with
  | PerDatabase size_text db => size_text ++ ": " ++ db
  | Total size_text => "TOTAL: " ++ size_text
  end.

(** A record of [logger.debug("Shard no existente en el FS %s", id)]. *)
Inductive log_record : Set :=
| ShardNotInFS (id : Z).

(** The state threaded through the loop over the groups.  [emitted] is a
    ghost copy of the numbers behind the per-database lines of [stdout]. *)
Record loop_state : Type := LoopState
  { database_var : option string;   (* the local [database]; [None]: unbound *)
    total_size : Z;
    stdout : list printed_line;
    emitted : list DatabaseSizeResult;
    debug_log : list log_record }.

(** Reading a local variable that may not be bound yet. *)
Definition read_local {A : Type} (v : option A) : result A :=
  match v with
  | Some a => Returns a
  | None => Raises UnboundLocalError
  end.

(** Truth value of [self.influx_db]: [None] and the empty string are false. *)
Definition truthy (db : option string) : bool :=
  match db with
  | Some s => negb (String.eqb s "")
  | None => false
  end.

Section Shards.

Variable log1024_floor : Z -> nat.
Variable influx_db : option string.     (* self.influx_db *)
Variable full : bool.                   (* args['--full'] *)
Variables from_date to_date : datetime.
Variable shards_size_list : gmap Z Z.   (* self.shards_size_list *)

(** The body of [for s in group], on the pair of [shard_size] and the log. *)
Definition shard_step (acc : Z * list log_record) (s : ShardRecord)
  : Z * list log_record :=
  if datetime_lt (start_time s) from_date then acc
  else if datetime_lt to_date (end_time s) then acc
  else
    match _get_shard_size shards_size_list (shard_id s) with
    | Some size => (acc.1 + size, acc.2)
    | None => (acc.1, (acc.2 ++ [ShardNotInFS (shard_id s)])%list)  (* += None raises, caught *)
    end.

(** The body of [for group in shards]. *)
Definition shards_group (st : loop_state) (group : list ShardRecord)
  : result loop_state :=
  (* try: database = group[0].get("database") / except Exception: pass *)
  let database_var' :=
    match group with
    | s :: _ => Some (database s)
    | [] => database_var st
    end in
  skip ← (if truthy influx_db
          then d ← read_local database_var';
               Returns (negb (bool_decide (Some d = influx_db)))
          else Returns false);
  if (skip : bool) then
    Returns (LoopState database_var' (total_size st) (stdout st) (emitted st)
               (debug_log st))
  else
    let acc := fold_left shard_step group (0, debug_log st) in
    let shard_size := acc.1 in
    out ← (if full || truthy influx_db
           then size_text ← _size log1024_floor shard_size;
                d ← read_local database_var';
                Returns ((stdout st ++ [PerDatabase size_text d])%list,
                         (emitted st ++ [DatabaseSize d shard_size])%list)
           else Returns (stdout st, emitted st));
    Returns (LoopState database_var' (total_size st + shard_size) out.1 out.2 acc.2).

Fixpoint shards_loop (groups : list (list ShardRecord)) (st : loop_state)
  : result loop_state :=
  match groups with
  | [] => Returns st
  | group :: groups' => st' ← shards_group st group; shards_loop groups' st'
  end.

(** The state before the loop: [database] unbound, [total_size = 0]. *)
Definition initial_state : loop_state := LoopState None 0 [] [] [].

(** The loop and the final [TOTAL] line. *)
Definition shards_report (groups : list (list ShardRecord)) : result loop_state :=
  st ← shards_loop groups initial_state;
  if truthy influx_db then Returns st
  else
    size_text ← _size log1024_floor (total_size st);
    Returns (LoopState (database_var st) (total_size st)
               (stdout st ++ [Total size_text])%list (emitted st) (debug_log st)).

End Shards.

(** [shards]: the sizes are collected first, from the lines the remote
    command wrote, then the groups of the [SHOW SHARDS] query are gone
    through. *)
Definition shards (log1024_floor : Z -> nat) (influx_db : option string)
    (full : bool) (from_date to_date : datetime)
    (stdout_lines : list string) (groups : list (list ShardRecord))
  : result loop_state :=
  shards_size_list ← _get_all_shards_size stdout_lines;
  shards_report log1024_floor influx_db full from_date to_date shards_size_list groups.

(** ** Definitions used to state the properties *)

(** The longest prefix of [s] in a class, and what follows it. *)
Fixpoint take_while (cls : ascii -> bool) (s : string) : string :=
  match s with
  | String c s' => if cls c then String c (take_while cls s') else ""
  | EmptyString => ""
  end.

Fixpoint drop_while (cls : ascii -> bool) (s : string) : string :=
  match s with
  | String c s' => if cls c then drop_while cls s' else s
  | EmptyString => ""
  end.

(** No character of [s] is in the class. *)
Fixpoint none_in (cls : ascii -> bool) (s : string) : bool :=
  match s with
  | String c s' => negb (cls c) && none_in cls s'
  | EmptyString => true
  end.

(** The digits after a [/] at the start of [s], when there is one. *)
Definition id_here (s : string) : option string :=
  match s with
  | String c s' =>
      if Ascii.eqb "/" c then
        match take_while Re.digit s' with
        | EmptyString => None
        | g => Some g
        end
      else None
  | EmptyString => None
  end.

(** The digits after the last [/] followed by a digit that can be reached
    from the start of [s] without crossing a newline. *)
Fixpoint last_id (s : string) : option string :=
  match s with
  | String c s' =>
      if Re.dot c then
        match last_id s' with
        | Some g => Some g
        | None => id_here s
        end
      else id_here s
  | EmptyString => None
  end.

(** The two fields of a line, read without backtracking: the digits at its
    start, a run of whitespace, and the last id of the rest. *)
Definition parse_fields (line : string) : option (string * string) :=
  match take_while Re.digit line, drop_while Re.digit line with
  | String _ _ as g1, String c _ as rest =>
      if Re.space c then
        match last_id (drop_while Re.space rest) with
        | Some g2 => Some (g1, g2)
        | None => None
        end
      else None
  | _, _ => None
  end.

(** A line is well formed when the pattern matches it. *)
Definition well_formed (line : string) : bool :=
  match Re.re_match regexp line with
  | Some _ => true
  | None => false
  end.

(** The entry a line stands for, if any. *)
Definition line_entry (line : string) : option (Z * Z) :=
  match _parse_du line with
  | Returns e => Some e
  | Raises _ => None
  end.

(** Every character of [s] is in the class. *)
Fixpoint all_in (cls : ascii -> bool) (s : string) : bool :=
  match s with
  | String c s' => cls c && all_in cls s'
  | EmptyString => true
  end.

(** The index built from the well-formed lines of [lines] alone, in stream
    order, a later line overwriting an earlier one. *)
Definition store (idx : gmap Z Z) (e : Z * Z) : gmap Z Z := <[e.1 := e.2]> idx.

Definition size_index (lines : list string) : gmap Z Z :=
  fold_left store (omap line_entry lines) ∅.

(** Whether a line is an entry of shard [id]. *)
Definition reports (id : Z) (line : string) : bool :=
  match line_entry line with
  | Some e => e.1 =? id
  | None => false
  end.

(** The window test in the words of the specification: the shard lies
    within [[from_date, to_date]], both ends included. *)
Definition in_window (from_date to_date : datetime) (s : ShardRecord) : bool :=
  datetime_le from_date (start_time s) && datetime_le (end_time s) to_date.

(** The bytes a shard adds to the total of its group. *)
Definition contribution (from_date to_date : datetime) (idx : gmap Z Z)
    (s : ShardRecord) : Z :=
  if in_window from_date to_date s then default 0 (idx !! shard_id s) else 0.

(** The records logged for a shard. *)
Definition diagnostics (from_date to_date : datetime) (idx : gmap Z Z)
    (s : ShardRecord) : list log_record :=
  if in_window from_date to_date s then
    match idx !! shard_id s with
    | Some _ => []
    | None => [ShardNotInFS (shard_id s)]
    end
  else [].

Definition sum_Z (l : list Z) : Z := foldr Z.add 0 l.

(** [shard_size] when the loop over the records of a group ends. *)
Definition group_size (from_date to_date : datetime) (idx : gmap Z Z)
    (group : list ShardRecord) : Z :=
  (fold_left (shard_step from_date to_date idx) group (0, [])).1.

Definition is_total_line (l : printed_line) : bool :=
  match l with
  | Total _ => true
  | PerDatabase _ _ => false
  end.

(** The sum of the bytes behind the per-database lines. *)
Definition emitted_bytes (st : loop_state) : Z := sum_Z (total_bytes <$> emitted st).

(** The value of the local [database] once the first statement of the loop
    body has run on [group]. *)
Definition database_of (st : loop_state) (group : list ShardRecord) : option string :=
  match group with
  | s :: _ => Some (database s)
  | [] => database_var st
  end.

(** A group is processed when the filter does not skip it. *)
Definition processed (influx_db : option string) (st : loop_state)
    (group : list ShardRecord) : bool :=
  negb (truthy influx_db) || bool_decide (database_of st group = influx_db).

(** The database named by the first record of a group. *)
Definition first_database (group : list ShardRecord) : option string :=
  database <$> head group.

(** The groups that the filter lets through, for groups with a first record. *)
Definition selected (influx_db : option string) (group : list ShardRecord) : bool :=
  negb (truthy influx_db) || bool_decide (first_database group = influx_db).

(** What the per-database line of a group stands for. *)
Definition group_result (from_date to_date : datetime) (idx : gmap Z Z)
    (group : list ShardRecord) : DatabaseSizeResult :=
  DatabaseSize (default "" (first_database group)) (group_size from_date to_date idx group).

Definition non_empty {A : Type} (l : list A) : bool :=
  match l with
  | [] => false
  | _ :: _ => true
  end.

(** A per-database line shows the formatted bytes and the database of the
    result it stands for. *)
Definition line_for (log1024_floor : Z -> nat) (r : DatabaseSizeResult)
    (l : printed_line) : Prop :=
  exists size_text,
    _size log1024_floor (total_bytes r) = Returns size_text /\
    l = PerDatabase size_text (result_database r).

(** * Properties *)

(** ** The pattern, without backtracking *)

Lemma append_cons c (s t : string) : String c s ++ t = String c (s ++ t).
Proof. reflexivity. Qed.

Lemma append_empty_l (t : string) : "" ++ t = t.
Proof. reflexivity. Qed.

Lemma append_empty_r (s : string) : s ++ "" = s.
Proof. induction s as [|c s IH]; [done | by rewrite append_cons, IH]. Qed.

Lemma append_assoc (s t u : string) : (s ++ t) ++ u = s ++ t ++ u.
Proof. induction s as [|c s IH]; [done | by rewrite !append_cons, IH]. Qed.

Section Greedy.
Context {R : Type}.
Implicit Types (cls : ascii -> bool) (k : string -> string -> option R).

(** A continuation that always succeeds gets the longest run. *)
Lemma greedy_total cls k (f : string -> R) taken s :
  (forall t r, k t r = Some (f t)) ->
  Re.greedy cls k taken s = Some (f (taken ++ take_while cls s)).
Proof.
  intros Hk. revert taken.
  induction s as [|c s IH]; intros taken; simpl.
  - by rewrite Hk, append_empty_r.
  - destruct (cls c).
    + by rewrite IH, append_assoc.
    + by rewrite Hk, append_empty_r.
Qed.

(** A continuation that fails in front of a character of the class only
    ever sees the longest run. *)
Lemma greedy_longest cls k taken s :
  (forall t c r, cls c = true -> k t (String c r) = None) ->
  Re.greedy cls k taken s = k (taken ++ take_while cls s) (drop_while cls s).
Proof.
  intros Hk. revert taken.
  induction s as [|c s IH]; intros taken; simpl.
  - by rewrite append_empty_r.
  - destruct (cls c) eqn:Hc.
    + rewrite IH, append_assoc, append_cons, append_empty_l.
      destruct (k _ _) eqn:Hlong; [done | by apply Hk].
    + by rewrite append_empty_r.
Qed.

(** The text taken does not matter to a continuation that ignores it. *)
Lemma greedy_irrelevant cls k t1 t2 s :
  (forall a b r, k a r = k b r) ->
  Re.greedy cls k t1 s = Re.greedy cls k t2 s.
Proof.
  intros Hk. revert t1 t2.
  induction s as [|c s IH]; intros t1 t2; simpl.
  - apply Hk.
  - destruct (cls c); [|apply Hk].
    rewrite (IH _ (t2 ++ String c "")). by rewrite (Hk t1 t2).
Qed.

Lemma fails_before_run cls (k' : string -> option R) s :
  (forall c r, cls c = true -> k' r = None -> k' (String c r) = None) ->
  k' (drop_while cls s) = None -> k' s = None.
Proof.
  intros Hk. induction s as [|c s IH]; simpl; [done|].
  destruct (cls c) eqn:Hc; [|done].
  intros H. by apply Hk, IH.
Qed.

(** When giving a character back never helps, the outcome is that of the
    longest run. *)
Lemma greedy_no_help cls k (k' : string -> option R) taken s :
  (forall t r, k t r = k' r) ->
  (forall c r, cls c = true -> k' r = None -> k' (String c r) = None) ->
  Re.greedy cls k taken s = k' (drop_while cls s).
Proof.
  intros Hk Hhelp. revert taken.
  induction s as [|c s IH]; intros taken; simpl.
  - apply Hk.
  - destruct (cls c) eqn:Hc; [|apply Hk].
    rewrite IH. destruct (k' (drop_while cls s)) eqn:Hlong; [done|].
    rewrite Hk. apply Hhelp; [done|]. by apply (fails_before_run cls).
Qed.
End Greedy.

Lemma digit_not_space c : Re.digit c = true -> Re.space c = false.
Proof. by destruct c as [[] [] [] [] [] [] [] []]. Qed.

Lemma space_not_slash c : Re.space c = true -> Ascii.eqb "/" c = false.
Proof. by destruct c as [[] [] [] [] [] [] [] []]. Qed.

Lemma digit_not_slash c : Re.digit c = true -> Ascii.eqb "/" c = false.
Proof. by destruct c as [[] [] [] [] [] [] [] []]. Qed.

(** [/([0-9]+)] *)
Lemma run_id_here groups s :
  Re.run [Re.Lit "/"; Re.Rep Re.digit true true] groups s
  = (fun g => (groups ++ [g])%list) <$> id_here s.
Proof.
  destruct s as [|c s]; cbn [Re.run id_here]; [done|].
  destruct (Ascii.eqb "/" c); [|done].
  destruct s as [|d s]; cbn [take_while]; [done|].
  destruct (Re.digit d); [|done].
  by rewrite (greedy_total _ _ (fun t => (groups ++ [t])%list)).
Qed.

(** [.*/([0-9]+)] *)
Lemma run_last_id groups s :
  Re.run [Re.Rep Re.dot false false; Re.Lit "/"; Re.Rep Re.digit true true] groups s
  = (fun g => (groups ++ [g])%list) <$> last_id s.
Proof.
  change (Re.run _ groups s) with
    (Re.greedy Re.dot
       (fun _ rest => Re.run [Re.Lit "/"; Re.Rep Re.digit true true] groups rest) "" s).
  generalize "" as taken.
  induction s as [|c s IH]; intros taken; [done|].
  cbn [Re.greedy last_id]. destruct (Re.dot c); [|apply run_id_here].
  rewrite IH. destruct (last_id s); [done|]. apply run_id_here.
Qed.

Lemma last_id_after_space c s :
  Re.space c = true -> last_id s = None -> last_id (String c s) = None.
Proof.
  intros Hc Hs. cbn [last_id id_here]. rewrite Hs, (space_not_slash c Hc).
  by destruct (Re.dot c).
Qed.

(** The pattern finds the fields that [parse_fields] reads. *)
Lemma re_match_fields line :
  Re.re_match regexp line = (fun f => [f.1; f.2]) <$> parse_fields line.
Proof.
  unfold Re.re_match, regexp, parse_fields.
  destruct line as [|c line]; [done|].
  cbn [Re.run take_while drop_while]. destruct (Re.digit c) eqn:Hc; [|done].
  rewrite greedy_longest, append_cons, append_empty_l.
  2:{ intros t d r Hd. cbn [Re.run]. by rewrite (digit_not_space d Hd). }
  set (g1 := String c (take_while Re.digit line)).
  destruct (drop_while Re.digit line) as [|w rest]; [done|].
  cbn [Re.run app]. destruct (Re.space w) eqn:Hw; [|done].
  rewrite (greedy_no_help _ _
    (Re.run [Re.Rep Re.dot false false; Re.Lit "/"; Re.Rep Re.digit true true] [g1])).
  - rewrite run_last_id.
    by destruct (last_id (drop_while Re.space rest)).
  - done.
  - intros d r Hd. rewrite !run_last_id.
    destruct (last_id r) eqn:Hr; [done|]. intros _.
    by rewrite (last_id_after_space d r Hd Hr).
Qed.

(** [_parse_du] on the fields. *)
Lemma parse_du_fields line :
  _parse_du line =
  match parse_fields line with
  | Some (g1, g2) => Returns (py_int g2, py_int g1)
  | None => Raises AttributeError
  end.
Proof.
  unfold _parse_du. rewrite re_match_fields.
  by destruct (parse_fields line) as [[g1 g2]|].
Qed.

Lemma well_formed_fields line :
  well_formed line = match parse_fields line with Some _ => true | None => false end.
Proof. unfold well_formed. rewrite re_match_fields. by destruct (parse_fields line). Qed.

(** A well-formed line is parsed, any other line makes [_parse_du] raise. *)
Lemma parse_du_well_formed line :
  well_formed line = true -> exists e, _parse_du line = Returns e.
Proof.
  rewrite well_formed_fields, parse_du_fields.
  destruct (parse_fields line) as [[g1 g2]|]; [eauto | done].
Qed.

Lemma parse_du_malformed line :
  well_formed line = false -> _parse_du line = Raises AttributeError.
Proof.
  rewrite well_formed_fields, parse_du_fields.
  by destruct (parse_fields line) as [[g1 g2]|].
Qed.

Example parse_du_docstring :
  _parse_du "23248   /opt/influxdb/data/ddbb/default/1939" = Returns (1939, 23248).
Proof. reflexivity. Qed.

Example parse_du_tab :
  _parse_du ("23248" ++ String "009" "/opt/db/data/ddbb/default/1939")
  = Returns (1939, 23248).
Proof. reflexivity. Qed.

(** ** Trailing characters *)

Lemma none_in_head cls t : none_in cls t = true -> take_while cls t = "".
Proof. destruct t as [|d t]; [done|]. cbn. by destruct (cls d). Qed.

Lemma take_while_app_head cls s t :
  take_while cls t = "" -> take_while cls (s ++ t) = take_while cls s.
Proof.
  intros Ht. induction s as [|c s IH]; [done|].
  rewrite append_cons. cbn. by rewrite IH.
Qed.

Lemma drop_while_app_head cls s t :
  take_while cls t = "" -> drop_while cls (s ++ t) = drop_while cls s ++ t.
Proof.
  intros Ht. induction s as [|c s IH].
  - rewrite !append_empty_l. destruct t as [|d t]; [done|].
    cbn in Ht |- *. by destruct (cls d).
  - rewrite append_cons. cbn. by destruct (cls c).
Qed.

Lemma take_while_app cls s t :
  none_in cls t = true -> take_while cls (s ++ t) = take_while cls s.
Proof. intros. by apply take_while_app_head, none_in_head. Qed.

Lemma drop_while_app cls s t :
  none_in cls t = true -> drop_while cls (s ++ t) = drop_while cls s ++ t.
Proof. intros. by apply drop_while_app_head, none_in_head. Qed.

Lemma none_in_drop_while cls cls' t :
  none_in cls t = true -> none_in cls (drop_while cls' t) = true.
Proof.
  induction t as [|c t IH]; [done|]. cbn.
  destruct (cls' c); [|done]. intros [_ ?]%andb_true_iff. auto.
Qed.

Lemma id_here_app s t :
  none_in Re.digit t = true -> s <> "" -> id_here (s ++ t) = id_here s.
Proof.
  intros Ht Hs. destruct s as [|c s]; [done|].
  rewrite append_cons. cbn [id_here]. by rewrite take_while_app.
Qed.

Lemma last_id_no_digit t : none_in Re.digit t = true -> last_id t = None.
Proof.
  induction t as [|c t IH]; [done|]. cbn [none_in last_id id_here].
  intros [Hc Ht]%andb_true_iff. rewrite (IH Ht).
  assert (take_while Re.digit t = "") as ->.
  { destruct t as [|d t]; [done|]. cbn in Ht |- *. by destruct (Re.digit d). }
  by destruct (Re.dot c), (Ascii.eqb "/" c).
Qed.

Lemma last_id_app s t :
  none_in Re.digit t = true -> last_id (s ++ t) = last_id s.
Proof.
  intros Ht. induction s as [|c s IH].
  - rewrite append_empty_l. by apply last_id_no_digit.
  - rewrite append_cons. cbn [last_id]. rewrite IH.
    by rewrite <- append_cons, id_here_app.
Qed.

Lemma last_id_after_spaces_app s t :
  none_in Re.digit t = true ->
  last_id (drop_while Re.space (s ++ t)) = last_id (drop_while Re.space s).
Proof.
  intros Ht. induction s as [|c s IH].
  - rewrite append_empty_l. cbn. by apply last_id_no_digit, none_in_drop_while.
  - rewrite append_cons. cbn [drop_while]. destruct (Re.space c); [done|].
    by rewrite <- append_cons, last_id_app.
Qed.

Lemma parse_fields_app line t :
  none_in Re.digit t = true -> parse_fields (line ++ t) = parse_fields line.
Proof.
  intros Ht. unfold parse_fields.
  rewrite take_while_app, drop_while_app by done.
  destruct (take_while Re.digit line) as [|d g1]; [done|].
  destruct (drop_while Re.digit line) as [|c rest].
  - rewrite append_empty_l. destruct t as [|c t]; [done|].
    destruct (Re.space c); [|done].
    by rewrite last_id_no_digit by (by apply none_in_drop_while).
  - rewrite append_cons. destruct (Re.space c) eqn:Hc; [|done].
    by rewrite <- append_cons, last_id_after_spaces_app.
Qed.

(** ** Lines of the expected shape *)

Lemma take_while_all cls s : all_in cls s = true -> take_while cls s = s.
Proof.
  induction s as [|c s IH]; [done|]. cbn.
  intros [-> ?]%andb_true_iff. by rewrite IH.
Qed.

Lemma drop_while_all cls s : all_in cls s = true -> drop_while cls s = "".
Proof.
  induction s as [|c s IH]; [done|]. cbn.
  intros [-> ?]%andb_true_iff. auto.
Qed.

Lemma last_id_digits s : all_in Re.digit s = true -> last_id s = None.
Proof.
  induction s as [|c s IH]; [done|]. cbn [all_in last_id id_here].
  intros [Hc Hs]%andb_true_iff. rewrite (IH Hs), (digit_not_slash c Hc).
  by destruct (Re.dot c).
Qed.

(** After a path without newline, the id that ends the line is found. *)
Lemma last_id_path path id :
  all_in Re.dot path = true -> all_in Re.digit id = true -> id <> "" ->
  last_id (path ++ "/" ++ id) = Some id.
Proof.
  intros Hpath Hid Hne. induction path as [|c path IH].
  - rewrite append_empty_l. change ("/" ++ id) with (String "/" id).
    cbn [last_id id_here]. rewrite last_id_digits, take_while_all by done.
    change (Re.dot "/") with true. change (Ascii.eqb "/" "/") with true.
    cbv iota. by destruct id.
  - rewrite append_cons. cbn [last_id]. cbn in Hpath.
    apply andb_true_iff in Hpath as [-> Hpath]. by rewrite IH.
Qed.

Lemma all_in_drop_while cls cls' s :
  all_in cls s = true -> all_in cls (drop_while cls' s) = true.
Proof.
  induction s as [|c s IH]; [done|]. cbn.
  destruct (cls' c); [|done]. intros [_ ?]%andb_true_iff. auto.
Qed.

Lemma drop_while_all_app cls s t :
  all_in cls s = true -> drop_while cls (s ++ t) = drop_while cls t.
Proof.
  induction s as [|c s IH]; [done|]. rewrite append_cons. cbn.
  intros [-> ?]%andb_true_iff. auto.
Qed.

Lemma parse_fields_shape size ws path id :
  size <> "" -> all_in Re.digit size = true ->
  ws <> "" -> all_in Re.space ws = true ->
  all_in Re.dot path = true ->
  id <> "" -> all_in Re.digit id = true ->
  parse_fields (size ++ ws ++ path ++ "/" ++ id) = Some (size, id).
Proof.
  intros Hsize Hdigits Hws Hspaces Hpath Hid Hiddigits.
  assert (last_id (drop_while Re.space (ws ++ path ++ "/" ++ id)) = Some id) as Hlast.
  { rewrite drop_while_all_app, drop_while_app_head by done.
    apply last_id_path; [by apply all_in_drop_while | done..]. }
  destruct ws as [|w ws]; [done|]. cbn in Hspaces.
  apply andb_true_iff in Hspaces as [Hw Hspaces].
  assert (take_while Re.digit (String w ws ++ path ++ "/" ++ id) = "") as Hhead.
  { rewrite append_cons. cbn.
    destruct (Re.digit w) eqn:Hd; [|done]. by rewrite (digit_not_space w Hd) in Hw. }
  unfold parse_fields.
  rewrite take_while_app_head, drop_while_app_head by done.
  rewrite take_while_all, drop_while_all, append_empty_l by done.
  destruct size as [|d size]; [done|].
  rewrite append_cons in Hlast |- *. cbn [drop_while] in Hlast.
  rewrite Hw in Hlast |- *. cbn [drop_while]. by rewrite Hw, Hlast.
Qed.

(** ** The collector *)

Lemma line_entry_well_formed line :
  well_formed line = true -> exists e, line_entry line = Some e /\ _parse_du line = Returns e.
Proof.
  intros [e He]%parse_du_well_formed. exists e. unfold line_entry. by rewrite He.
Qed.

Lemma line_entry_malformed line : well_formed line = false -> line_entry line = None.
Proof. intros H. unfold line_entry. by rewrite parse_du_malformed. Qed.

(** Without a malformed line the loop stores every entry, in order. *)
Lemma collect_lines_well_formed lines (idx : gmap Z Z) :
  forallb well_formed lines = true ->
  collect_lines lines idx = Returns (fold_left store (omap line_entry lines) idx).
Proof.
  revert idx. induction lines as [|line lines IH]; intros idx; cbn [forallb]; [done|].
  intros [Hline Hlines]%andb_true_iff.
  destruct (line_entry_well_formed line Hline) as ([id size] & Hentry & Hparse).
  cbn [collect_lines omap list_omap]. rewrite Hparse, Hentry. cbn. by rewrite IH.
Qed.

(** The first malformed line ends the loop with the exception of [_parse_du]. *)
Lemma collect_lines_malformed lines (idx : gmap Z Z) :
  forallb well_formed lines = false ->
  collect_lines lines idx = Raises AttributeError.
Proof.
  revert idx. induction lines as [|line lines IH]; intros idx; cbn [forallb]; [done|].
  destruct (well_formed line) eqn:Hline; cbn [andb].
  - intros Hlines. destruct (parse_du_well_formed line Hline) as ([id size] & Hparse).
    cbn [collect_lines]. rewrite Hparse. cbn. by apply IH.
  - intros _. cbn [collect_lines]. by rewrite parse_du_malformed.
Qed.

Lemma collect_lines_app before after (idx : gmap Z Z) :
  collect_lines (before ++ after) idx
  = (collect_lines before idx ≫= collect_lines after).
Proof.
  revert idx. induction before as [|line before IH]; intros idx; [done|].
  cbn [app collect_lines]. destruct (_parse_du line) as [[id size]|e]; [|done].
  cbn. apply IH.
Qed.

(** Lines about other shards leave the entry of a shard as it is. *)
Lemma collect_lines_other lines (idx : gmap Z Z) (id : Z) :
  forallb well_formed lines = true ->
  (forall line size, line ∈ lines -> _parse_du line <> Returns (id, size)) ->
  exists idx', collect_lines lines idx = Returns idx' /\ idx' !! id = idx !! id.
Proof.
  revert idx. induction lines as [|line lines IH]; intros idx; cbn [forallb].
  { intros _ _. by exists idx. }
  intros [Hline Hlines]%andb_true_iff Hother.
  destruct (parse_du_well_formed line Hline) as ([id' size'] & Hparse).
  cbn [collect_lines]. rewrite Hparse. cbn.
  destruct (IH (<[id' := size']> idx) Hlines) as (idx' & Hrun & Hid).
  { intros l sz Hl. apply Hother. by right. }
  exists idx'. split; [done|]. rewrite Hid. apply lookup_insert_ne.
  intros ->. apply (Hother line size'); [by left | done].
Qed.

(** C1 (amended).  A line that the pattern does not match makes [_parse_du]
    raise (AttributeError, on the missing match object), and the collector
    has no handler for it: when every line is well formed it returns the
    index built from the lines, and otherwise the exception of the first
    malformed line ends the collection, no index being returned. *)
Theorem collection_stops_at_malformed_line (lines : list string) :
  (forall line, well_formed line = false -> _parse_du line = Raises AttributeError) /\
  (forallb well_formed lines = true ->
   _get_all_shards_size lines = Returns (size_index lines)) /\
  (forallb well_formed lines = false ->
   _get_all_shards_size lines = Raises AttributeError).
Proof.
  split; [apply parse_du_malformed|]. split; intros H.
  - by apply collect_lines_well_formed.
  - by apply collect_lines_malformed.
Qed.

Lemma collection_stops_at_malformed_line_witness :
  _parse_du "du: cannot read directory: Permission denied" = Raises AttributeError /\
  _get_all_shards_size ["23248   /opt/influxdb/data/ddbb/default/1939"]
  = Returns (size_index ["23248   /opt/influxdb/data/ddbb/default/1939"]) /\
  _get_all_shards_size
    ["du: cannot read directory: Permission denied";
     "23248   /opt/influxdb/data/ddbb/default/1939"]
  = Raises AttributeError.
Proof.
  split; [|split].
  - apply (collection_stops_at_malformed_line []). reflexivity.
  - apply (collection_stops_at_malformed_line
             ["23248   /opt/influxdb/data/ddbb/default/1939"]). reflexivity.
  - apply (collection_stops_at_malformed_line
             ["du: cannot read directory: Permission denied";
              "23248   /opt/influxdb/data/ddbb/default/1939"]). reflexivity.
Defined.

(** C1, as stated, fails: with a permission-denied message in front of a
    well-formed line the collector does not return the index of the
    well-formed line, it raises. *)
Lemma malformed_line_is_not_skipped :
  let lines := ["du: cannot read directory: Permission denied";
                "23248   /opt/influxdb/data/ddbb/default/1939"] in
  _get_all_shards_size lines <> Returns (size_index lines) /\
  _get_all_shards_size lines = Raises AttributeError.
Proof.
  intros lines.
  assert (_get_all_shards_size lines = Raises AttributeError) as -> by reflexivity.
  split; [discriminate | reflexivity].
Qed.

(** C9.  When several well-formed lines report the same shard id, the index
    maps the id to the size of the last of them: no error is raised, and
    the sizes are not added up. *)
Theorem last_line_wins (before after : list string) (line : string) (id size : Z) :
  forallb well_formed (before ++ line :: after) = true ->
  _parse_du line = Returns (id, size) ->
  forallb (fun l => negb (reports id l)) after = true ->
  exists idx,
    _get_all_shards_size (before ++ line :: after) = Returns idx /\
    idx !! id = Some size.
Proof.
  rewrite forallb_app. cbn [forallb].
  intros [Hbefore Hafter]%andb_true_iff Hparse Hlast.
  apply andb_true_iff in Hafter as [_ Hafter].
  unfold _get_all_shards_size. rewrite collect_lines_app.
  rewrite (collect_lines_well_formed before) by done.
  cbn [mbind result_bind collect_lines]. rewrite Hparse. cbn.
  edestruct (collect_lines_other after) as (idx & -> & Hid); [done| |].
  - intros l sz Hl Hl'. rewrite forallb_forall in Hlast.
    apply list_elem_of_In, Hlast in Hl. unfold reports, line_entry in Hl.
    rewrite Hl' in Hl. cbn in Hl. by rewrite Z.eqb_refl in Hl.
  - exists idx. split; [done|]. rewrite Hid. apply lookup_insert_eq.
Qed.

Lemma last_line_wins_witness :
  exists idx,
    _get_all_shards_size
      ["100 /var/lib/influxdb/data/db/rp/7"; "4096 /var/lib/influxdb/data/db/rp/8";
       "200 /var/lib/influxdb/data/db/rp/7"; "512 /var/lib/influxdb/data/db/rp/9"]
    = Returns idx /\
    idx !! 7 = Some 200.
Proof.
  apply (last_line_wins
           ["100 /var/lib/influxdb/data/db/rp/7"; "4096 /var/lib/influxdb/data/db/rp/8"]
           ["512 /var/lib/influxdb/data/db/rp/9"]
           "200 /var/lib/influxdb/data/db/rp/7" 7 200); reflexivity.
Defined.

(** C10.  Characters that are not digits, added at the end of a line, change
    nothing: the line is parsed as without them, and a line made of a
    decimal byte count, whitespace, a path and a decimal id after its last
    [/] is parsed to the id and the count whatever such characters follow
    (the pattern is not anchored at the end of the line). *)
Theorem trailing_characters_ignored (trailing : string) :
  none_in Re.digit trailing = true ->
  (forall line, _parse_du (line ++ trailing) = _parse_du line) /\
  (forall size ws path id,
     size <> "" -> all_in Re.digit size = true ->
     ws <> "" -> all_in Re.space ws = true ->
     all_in Re.dot path = true ->
     id <> "" -> all_in Re.digit id = true ->
     _parse_du (size ++ ws ++ path ++ "/" ++ id ++ trailing)
     = Returns (py_int id, py_int size)).
Proof.
  intros Htrailing.
  assert (forall line, _parse_du (line ++ trailing) = _parse_du line) as Hsame.
  { intros line. by rewrite !parse_du_fields, parse_fields_app. }
  split; [done|]. intros size ws path id ? ? ? ? ? ? ?.
  replace (size ++ ws ++ path ++ "/" ++ id ++ trailing)
    with ((size ++ ws ++ path ++ "/" ++ id) ++ trailing)
    by (by rewrite !append_assoc).
  by rewrite Hsame, parse_du_fields, parse_fields_shape.
Qed.

Lemma trailing_characters_ignored_witness :
  _parse_du ("23248" ++ "   " ++ "/opt/influxdb/data/ddbb/default" ++ "/" ++ "1939"
             ++ String "013" (String "010" ""))
  = Returns (1939, 23248).
Proof.
  apply (trailing_characters_ignored (String "013" (String "010" "")));
    [reflexivity | discriminate | reflexivity | discriminate | reflexivity
    | reflexivity | discriminate | reflexivity].
Defined.

(** ** The order on datetimes *)

Lemma lexico_opp c d : lexico (CompOpp c) (CompOpp d) = CompOpp (lexico c d).
Proof. by destruct c. Qed.

Lemma datetime_compare_antisym a b :
  datetime_compare b a = CompOpp (datetime_compare a b).
Proof.
  unfold datetime_compare.
  rewrite (Z.compare_antisym (year a)), (Z.compare_antisym (month a)),
    (Z.compare_antisym (day a)), (Z.compare_antisym (hour a)),
    (Z.compare_antisym (minute a)), (Z.compare_antisym (second a)).
  by rewrite !lexico_opp.
Qed.

Lemma datetime_compare_refl a : datetime_compare a a = Eq.
Proof. unfold datetime_compare. by rewrite !Z.compare_refl. Qed.

Lemma datetime_compare_eq a b : datetime_compare a b = Eq -> a = b.
Proof.
  destruct a, b. unfold datetime_compare, lexico. cbn.
  repeat match goal with
         | |- context [?x ?= ?y] =>
             destruct (Z.compare_spec x y); [subst | done | done]
         end.
  done.
Qed.

(** [a <= b] holds when [a] is not after [b]. *)
Lemma datetime_le_spec a b : datetime_le a b = true <-> datetime_compare a b <> Gt.
Proof.
  unfold datetime_le, datetime_lt. rewrite datetime_compare_antisym.
  destruct (datetime_compare a b); cbn; naive_solver.
Qed.

Lemma datetime_le_refl a : datetime_le a a = true.
Proof. apply datetime_le_spec. by rewrite datetime_compare_refl. Qed.

Lemma datetime_lt_not_le a b : datetime_lt a b = true -> datetime_le b a = false.
Proof. unfold datetime_le. by intros ->. Qed.

(** ** The loop over the records of a group *)

Section Group.
Variables from_date to_date : datetime.
Variable idx : gmap Z Z.

Lemma shard_step_spec acc s :
  shard_step from_date to_date idx acc s
  = (acc.1 + contribution from_date to_date idx s,
     (acc.2 ++ diagnostics from_date to_date idx s)%list).
Proof.
  unfold shard_step, contribution, diagnostics, in_window, datetime_le, _get_shard_size.
  destruct acc as [size log]. cbn [fst snd].
  destruct (datetime_lt (start_time s) from_date); cbn [negb andb].
  { by rewrite Z.add_0_r, app_nil_r. }
  destruct (datetime_lt to_date (end_time s)); cbn [negb andb].
  { by rewrite Z.add_0_r, app_nil_r. }
  destruct (idx !! shard_id s); cbn [default]; [by rewrite app_nil_r|].
  by rewrite Z.add_0_r.
Qed.

Lemma fold_shard_step group acc :
  fold_left (shard_step from_date to_date idx) group acc
  = (acc.1 + sum_Z (contribution from_date to_date idx <$> group),
     (acc.2 ++ concat (diagnostics from_date to_date idx <$> group))%list).
Proof.
  revert acc. induction group as [|s group IH]; intros acc; cbn.
  { destruct acc. cbn. by rewrite Z.add_0_r, app_nil_r. }
  rewrite IH, shard_step_spec. cbn [fst snd].
  by rewrite Z.add_assoc, <- app_assoc.
Qed.

Lemma group_size_sum group :
  group_size from_date to_date idx group
  = sum_Z (contribution from_date to_date idx <$> group).
Proof. unfold group_size. by rewrite fold_shard_step. Qed.

Lemma sum_Z_app l1 l2 : sum_Z (l1 ++ l2) = sum_Z l1 + sum_Z l2.
Proof. unfold sum_Z. induction l1 as [|x l1 IH]; cbn; [done | rewrite IH; lia]. Qed.

Lemma sum_Z_cons x l : sum_Z (x :: l) = x + sum_Z l.
Proof. reflexivity. Qed.

Lemma group_size_insert before s after :
  group_size from_date to_date idx (before ++ s :: after)
  = group_size from_date to_date idx (before ++ after)
    + contribution from_date to_date idx s.
Proof.
  rewrite !group_size_sum, !fmap_app, fmap_cons, !sum_Z_app, sum_Z_cons. lia.
Qed.

End Group.

(** C6.  A shard adds its bytes to the total of its group exactly when
    [from <= start_time] and [end_time <= to], both ends included, and then
    once: a shard that starts before [from] adds nothing, a shard that ends
    after [to] adds nothing, and a shard whose window is exactly
    [[from, to]] adds its size. *)
Theorem window_filter (from_date to_date : datetime) (idx : gmap Z Z)
    (before after : list ShardRecord) (s : ShardRecord) :
  let size := default 0 (idx !! shard_id s) in
  let without := group_size from_date to_date idx (before ++ after) in
  let total := group_size from_date to_date idx (before ++ s :: after) in
  total = without +
          (if datetime_le from_date (start_time s) && datetime_le (end_time s) to_date
           then size else 0) /\
  (datetime_lt (start_time s) from_date = true -> total = without) /\
  (datetime_lt to_date (end_time s) = true -> total = without) /\
  (start_time s = from_date -> end_time s = to_date -> total = without + size).
Proof.
  intros size without total. subst size without total.
  rewrite group_size_insert. unfold contribution, in_window.
  split; [done|]. split; [|split].
  - intros ->%datetime_lt_not_le. cbn. lia.
  - intros ->%datetime_lt_not_le. rewrite andb_false_r. lia.
  - intros -> ->. by rewrite !datetime_le_refl.
Qed.

Lemma window_filter_witness :
  let from_date := Datetime 2020 1 1 0 0 0 in
  let to_date := Datetime 2020 12 31 0 0 0 in
  let idx : gmap Z Z := <[10 := 2048]> ∅ in
  let s := Shard 10 "metrics" from_date to_date in
  group_size from_date to_date idx ([] ++ s :: [])
  = group_size from_date to_date idx ([] ++ []) + default 0 (idx !! shard_id s).
Proof.
  intros from_date to_date idx s.
  destruct (window_filter from_date to_date idx [] [] s) as (_ & _ & _ & H).
  apply H; reflexivity.
Defined.



(** ** The loop over the groups *)

Section Report.
Variable log1024_floor : Z -> nat.
Variable influx_db : option string.
Variable full : bool.
Variables from_date to_date : datetime.
Variable idx : gmap Z Z.

Local Abbreviation step := (shards_group log1024_floor influx_db full from_date to_date idx).
Local Abbreviation loop := (shards_loop log1024_floor influx_db full from_date to_date idx).
Local Abbreviation size_of := (group_size from_date to_date idx).

(** What a step of the loop leaves behind when it returns: either the
    filter skipped the group, or the group was counted. *)
Lemma shards_group_returns st group st' :
  step st group = Returns st' ->
  database_var st' = database_of st group /\
  ((truthy influx_db = true /\ database_of st group <> influx_db /\
    total_size st' = total_size st /\ stdout st' = stdout st /\
    emitted st' = emitted st /\ debug_log st' = debug_log st) \/
   (processed influx_db st group /\
    total_size st' = total_size st + size_of group /\
    debug_log st'
    = (debug_log st ++ concat (diagnostics from_date to_date idx <$> group))%list /\
    (if full || truthy influx_db
     then exists size_text d,
         _size log1024_floor (size_of group) = Returns size_text /\
         database_of st group = Some d /\
         stdout st' = (stdout st ++ [PerDatabase size_text d])%list /\
         emitted st' = (emitted st ++ [DatabaseSize d (size_of group)])%list
     else stdout st' = stdout st /\ emitted st' = emitted st))).
Proof.
  unfold shards_group, processed. fold (database_of st group).
  rewrite fold_shard_step, <- group_size_sum. cbn [fst snd]. rewrite Z.add_0_l.
  unfold mbind, result_bind, mret, result_ret.
  destruct (truthy influx_db) eqn:Hdb; cbn [negb orb].
  - destruct (database_of st group) as [d|] eqn:Hd; cbn [read_local]; [|done].
    case_bool_decide as Heq; cbn [negb].
    + rewrite orb_true_r.
      destruct (_size log1024_floor _) as [size_text|e] eqn:Hsize; [|done].
      intros [= <-]. cbn. split; [done|]. right. do 3 (split; [done|]).
      by exists size_text, d.
    + intros [= <-]. cbn. split; [done|]. by left.
  - rewrite orb_false_r. destruct full.
    + destruct (_size log1024_floor _) as [size_text|e] eqn:Hsize; [|done].
      destruct (database_of st group) as [d|] eqn:Hd; cbn [read_local]; [|done].
      intros [= <-]. cbn. split; [done|]. right. do 3 (split; [done|]).
      by exists size_text, d.
    + intros [= <-]. cbn. split; [done|]. by right.
Qed.

(** A step returns when the group is processed, the name of the database is
    known and the total of the group can be formatted. *)
Lemma shards_group_processed st group d size_text :
  database_of st group = Some d ->
  processed influx_db st group = true ->
  _size log1024_floor (size_of group) = Returns size_text ->
  exists st', step st group = Returns st'.
Proof.
  unfold shards_group, processed. fold (database_of st group).
  rewrite fold_shard_step, <- group_size_sum. cbn [fst snd]. rewrite Z.add_0_l.
  unfold mbind, result_bind, mret, result_ret.
  intros -> Hproc ->. cbn [read_local].
  destruct (truthy influx_db) eqn:Hdb; cbn [negb orb] in Hproc.
  - rewrite Hproc. cbn. rewrite orb_true_r. eauto.
  - destruct (full || false); eauto.
Qed.

Lemma shards_loop_app groups1 groups2 st :
  loop (groups1 ++ groups2) st = (loop groups1 st ≫= loop groups2).
Proof.
  revert st. induction groups1 as [|g groups1 IH]; intros st; [done|].
  cbn [app shards_loop]. destruct (step st g); [|done]. apply IH.
Qed.

(** An empty group that is processed adds nothing to the grand total. *)
Lemma empty_group_adds_nothing st st' :
  step st [] = Returns st' -> total_size st' = total_size st.
Proof.
  intros [_ [(_ & _ & -> & _)|(_ & -> & _)]]%shards_group_returns; [done|].
  change (size_of []) with 0. lia.
Qed.

(** The loop writes per-database lines only. *)
Lemma shards_loop_no_total groups st st' :
  loop groups st = Returns st' ->
  forallb (fun l => negb (is_total_line l)) (stdout st) = true ->
  forallb (fun l => negb (is_total_line l)) (stdout st') = true.
Proof.
  revert st. induction groups as [|g groups IH]; intros st; cbn.
  { by intros [= <-]. }
  destruct (step st g) as [st1|e] eqn:Hg; [|done]. cbn.
  intros Hloop Hst. apply (IH st1 Hloop).
  apply shards_group_returns in Hg as [_ [(_ & _ & _ & -> & _)|(_ & _ & _ & Hout)]]; [done|].
  destruct (full || truthy influx_db).
  - destruct Hout as (size_text & d & _ & _ & -> & _).
    rewrite forallb_app, Hst. done.
  - by destruct Hout as [-> _].
Qed.

(** Without a filter, the bytes behind the per-database lines grow with the
    total when [--full] is given, and not at all otherwise. *)
Lemma shards_loop_emitted groups st st' :
  truthy influx_db = false ->
  loop groups st = Returns st' ->
  emitted_bytes st' - emitted_bytes st
  = if full then total_size st' - total_size st else 0.
Proof.
  intros Hdb. revert st. induction groups as [|g groups IH]; intros st; cbn.
  { intros [= <-]. destruct full; lia. }
  destruct (step st g) as [st1|e] eqn:Hg; [|done]. cbn.
  intros Hloop. specialize (IH st1 Hloop).
  apply shards_group_returns in Hg as [_ [(Hdb' & _)|(_ & Htotal & _ & Hout)]]; [congruence|].
  rewrite Hdb, orb_false_r in Hout. unfold emitted_bytes in *. destruct full.
  - destruct Hout as (size_text & d & _ & _ & _ & Hem).
    rewrite Hem, fmap_app, sum_Z_app in IH. cbn in IH. lia.
  - destruct Hout as [_ Hem]. rewrite Hem in IH. lia.
Qed.

(** Without a filter and without [--full] the loop writes nothing. *)
Lemma shards_loop_quiet groups st st' :
  truthy influx_db = false -> full = false ->
  loop groups st = Returns st' ->
  stdout st' = stdout st /\ emitted st' = emitted st.
Proof.
  intros Hdb Hfull. revert st. induction groups as [|g groups IH]; intros st; cbn.
  { by intros [= <-]. }
  destruct (step st g) as [st1|e] eqn:Hg; [|done]. cbn.
  intros [Hout Hem]%IH. rewrite Hout, Hem.
  apply shards_group_returns in Hg as [_ [(Hdb' & _)|(_ & _ & _ & Hg)]]; [congruence|].
  by rewrite Hdb, Hfull in Hg.
Qed.

End Report.

(** C8.  For a group that the filter does not skip, a per-database line is
    written exactly when [--full] is given or a database filter is set, and
    the total of the group is added to the grand total either way; after the
    loop, the [TOTAL] line is written, as the last line, exactly when no
    database filter is set. *)
Theorem line_emission_rule (log1024_floor : Z -> nat) (influx_db : option string)
    (full : bool) (from_date to_date : datetime) (idx : gmap Z Z) :
  (forall st group st',
     shards_group log1024_floor influx_db full from_date to_date idx st group
     = Returns st' ->
     processed influx_db st group = true ->
     total_size st' = total_size st + group_size from_date to_date idx group /\
     if full || truthy influx_db
     then exists size_text d,
         stdout st' = (stdout st ++ [PerDatabase size_text d])%list /\
         emitted st'
         = (emitted st ++ [DatabaseSize d (group_size from_date to_date idx group)])%list
     else stdout st' = stdout st /\ emitted st' = emitted st) /\
  (forall groups rep,
     shards_report log1024_floor influx_db full from_date to_date idx groups
     = Returns rep ->
     if truthy influx_db
     then forallb (fun l => negb (is_total_line l)) (stdout rep) = true
     else exists lines size_text,
         stdout rep = (lines ++ [Total size_text])%list /\
         forallb (fun l => negb (is_total_line l)) lines = true /\
         _size log1024_floor (total_size rep) = Returns size_text).
Proof.
  split.
  - intros st group st' Hstep Hproc.
    apply shards_group_returns in Hstep
      as [_ [(Hdb & Hne & _)|(_ & Htotal & _ & Hout)]].
    { unfold processed in Hproc. rewrite Hdb in Hproc. cbn in Hproc.
      by apply bool_decide_eq_true_1 in Hproc. }
    split; [done|]. destruct (full || truthy influx_db); [|done].
    destruct Hout as (size_text & d & _ & _ & ? & ?). by exists size_text, d.
  - intros groups rep. unfold shards_report, mbind, result_bind.
    destruct (shards_loop _ _ _ _ _ _ groups initial_state) as [st|e] eqn:Hloop; [|done].
    apply shards_loop_no_total in Hloop; [|done].
    destruct (truthy influx_db).
    + by intros [= <-].
    + destruct (_size log1024_floor (total_size st)) as [size_text|e] eqn:Hsize; [|done].
      intros [= <-]. cbn. by exists (stdout st), size_text.
Qed.

Lemma line_emission_rule_witness :
  let from_date := Datetime 2020 1 1 0 0 0 in
  let to_date := Datetime 2020 12 31 0 0 0 in
  let idx : gmap Z Z := <[10 := 2048]> ∅ in
  let s10 := Shard 10 "metrics" (Datetime 2020 1 1 0 0 0) (Datetime 2020 2 1 0 0 0) in
  let st' := LoopState (Some "metrics") 2048 [PerDatabase "2.0 KB" "metrics"]
               [DatabaseSize "metrics" 2048] [] in
  (total_size st' = total_size initial_state + group_size from_date to_date idx [s10] /\
   exists size_text d,
     stdout st' = (stdout initial_state ++ [PerDatabase size_text d])%list /\
     emitted st'
     = (emitted initial_state
        ++ [DatabaseSize d (group_size from_date to_date idx [s10])])%list) /\
  exists lines size_text,
    [PerDatabase "2.0 KB" "metrics"; Total "2.0 KB"] = (lines ++ [Total size_text])%list /\
    forallb (fun l => negb (is_total_line l)) lines = true /\
    _size exact_log1024_floor 2048 = Returns size_text.
Proof.
  intros from_date to_date idx s10 st'.
  destruct (line_emission_rule exact_log1024_floor None true from_date to_date idx)
    as [Hgroup Hreport].
  split.
  - apply (Hgroup initial_state [s10] st'); reflexivity.
  - apply (Hreport [[s10]]
             (LoopState (Some "metrics") 2048
                [PerDatabase "2.0 KB" "metrics"; Total "2.0 KB"]
                [DatabaseSize "metrics" 2048] [])).
    reflexivity.
Defined.

(** C5 (amended).  With no database filter set, the bytes of the
    per-database lines add up to the grand total when [--full] is given;
    without [--full] no per-database line is written and the sum is 0. *)
Theorem emitted_sum_is_total (log1024_floor : Z -> nat) (influx_db : option string)
    (full : bool) (from_date to_date : datetime)
    (stdout_lines : list string) (groups : list (list ShardRecord)) (rep : loop_state) :
  truthy influx_db = false ->
  shards log1024_floor influx_db full from_date to_date stdout_lines groups
  = Returns rep ->
  emitted_bytes rep = (if full then total_size rep else 0) /\
  (full = false -> emitted rep = []).
Proof.
  intros Hdb. unfold shards, shards_report, mbind, result_bind.
  destruct (_get_all_shards_size stdout_lines) as [idx|e]; [|done].
  destruct (shards_loop _ _ _ _ _ _ groups initial_state) as [st|e] eqn:Hloop; [|done].
  rewrite Hdb.
  destruct (_size log1024_floor (total_size st)) as [size_text|e]; [|done].
  intros [= <-]. split.
  - apply shards_loop_emitted in Hloop; [|done].
    unfold emitted_bytes in *. cbn [emitted total_size initial_state fmap list_fmap] in *.
    change (sum_Z []) with 0 in Hloop. destruct full; lia.
  - intros ->. by apply shards_loop_quiet in Hloop as [_ ->].
Qed.

Lemma emitted_sum_is_total_witness :
  let from_date := Datetime 2020 1 1 0 0 0 in
  let to_date := Datetime 2020 12 31 0 0 0 in
  let s10 := Shard 10 "metrics" (Datetime 2020 1 1 0 0 0) (Datetime 2020 2 1 0 0 0) in
  let s20 := Shard 20 "logs" (Datetime 2020 3 1 0 0 0) (Datetime 2020 4 1 0 0 0) in
  let rep := LoopState (Some "logs") 3072
               [PerDatabase "2.0 KB" "metrics"; PerDatabase "1.0 KB" "logs"; Total "3.0 KB"]
               [DatabaseSize "metrics" 2048; DatabaseSize "logs" 1024] [] in
  emitted_bytes rep = total_size rep /\ (true = false -> emitted rep = []).
Proof.
  intros from_date to_date s10 s20 rep.
  apply (emitted_sum_is_total exact_log1024_floor None true from_date to_date
           ["2048  /var/lib/influxdb/data/metrics/autogen/10";
            "1024  /var/lib/influxdb/data/logs/autogen/20"]
           [[s10]; [s20]] rep); reflexivity.
Defined.

(** C5, as stated, fails: with no database filter and without [--full] no
    per-database line is written, so the bytes of the lines add up to 0
    while the grand total is 2048. *)
Lemma emitted_sum_differs_without_full :
  let from_date := Datetime 2020 1 1 0 0 0 in
  let to_date := Datetime 2020 12 31 0 0 0 in
  let s10 := Shard 10 "metrics" (Datetime 2020 1 1 0 0 0) (Datetime 2020 2 1 0 0 0) in
  exists rep,
    shards exact_log1024_floor None false from_date to_date
      ["2048  /var/lib/influxdb/data/metrics/autogen/10"] [[s10]] = Returns rep /\
    emitted_bytes rep = 0 /\ total_size rep = 2048 /\
    emitted_bytes rep <> total_size rep.
Proof.
  intros from_date to_date s10.
  exists (LoopState (Some "metrics") 2048 [Total "2.0 KB"] [] []).
  split; [reflexivity|]. split; [reflexivity|]. split; [reflexivity|]. discriminate.
Qed.

(** C2: the code at an empty group.  The handler around [group[0]] only
    keeps the lookup from raising; the body of the loop still runs, with
    [database] as the previous group left it.  With [--full], an empty group
    after the group of [metrics] writes the line [0B: metrics]; an empty
    first group raises, [database] being unbound; and with the filter set to
    [metrics] the empty group passes the filter under the name left by the
    group before it and writes a second line too.  The totals are those of
    the other groups. *)
Theorem empty_group_is_not_skipped :
  let from_date := Datetime 2020 1 1 0 0 0 in
  let to_date := Datetime 2020 12 31 0 0 0 in
  let s10 := Shard 10 "metrics" (Datetime 2020 1 1 0 0 0) (Datetime 2020 2 1 0 0 0) in
  let lines := ["2048  /var/lib/influxdb/data/metrics/autogen/10"] in
  shards exact_log1024_floor None true from_date to_date lines [[s10]; []]
  = Returns (LoopState (Some "metrics") 2048
               [PerDatabase "2.0 KB" "metrics"; PerDatabase "0B" "metrics";
                Total "2.0 KB"]
               [DatabaseSize "metrics" 2048; DatabaseSize "metrics" 0] []) /\
  shards exact_log1024_floor None true from_date to_date lines [[]; [s10]]
  = Raises UnboundLocalError /\
  shards exact_log1024_floor (Some "metrics") false from_date to_date lines [[]; [s10]]
  = Raises UnboundLocalError /\
  shards exact_log1024_floor (Some "metrics") false from_date to_date lines [[s10]; []]
  = Returns (LoopState (Some "metrics") 2048
               [PerDatabase "2.0 KB" "metrics"; PerDatabase "0B" "metrics"]
               [DatabaseSize "metrics" 2048; DatabaseSize "metrics" 0] []).
Proof. repeat split; reflexivity. Qed.

(** ** The size formatter *)

Lemma pow_1024 (i : nat) : 2 ^ (10 * Z.of_nat i) = 1024 ^ Z.of_nat i.
Proof. rewrite Z.pow_mul_r by lia. reflexivity. Qed.

(** [round_half_even] gives one of the two integers around the quotient,
    the one nearest to it. *)
Lemma round_half_even_bounds num den :
  0 < den -> num / den <= round_half_even num den <= num / den + 1.
Proof.
  intros Hden. unfold round_half_even.
  repeat match goal with |- context [if ?b then _ else _] => destruct b end; lia.
Qed.





Lemma math_pow_1024_spec (i : nat) :
  math_pow_1024 i
  = if (i <=? 102)%nat then Returns (1024 ^ Z.of_nat i) else Raises OverflowError.
Proof.
  unfold math_pow_1024. rewrite pow_1024.
  destruct (Z.leb_spec (10 * Z.of_nat i) 1023), (Nat.leb_spec i 102); try done; lia.
Qed.

(** The exact logarithm brackets the number. *)
Lemma exact_log1024_floor_spec n :
  0 < n ->
  1024 ^ Z.of_nat (exact_log1024_floor n) <= n
  < 1024 ^ (Z.of_nat (exact_log1024_floor n) + 1).
Proof.
  intros Hpos. unfold exact_log1024_floor.
  pose proof (Z.log2_nonneg n) as Hnonneg.
  destruct (Z.log2_spec n Hpos) as [Hl Hu].
  rewrite Z2Nat.id by (apply Z.div_pos; lia).
  set (q := Z.log2 n / 10).
  assert (10 * q <= Z.log2 n < 10 * (q + 1)) as [Hq Hq'].
  { pose proof (Z.div_mod (Z.log2 n) 10 ltac:(lia)).
    pose proof (Z.mod_pos_bound (Z.log2 n) 10 ltac:(lia)). subst q. lia. }
  assert (0 <= q) by (apply Z.div_pos; lia).
  change 1024 with (2 ^ 10). rewrite <- !Z.pow_mul_r by lia. split.
  - etransitivity; [|exact Hl]. apply Z.pow_le_mono_r; lia.
  - eapply Z.lt_le_trans; [exact Hu|]. apply Z.pow_le_mono_r; lia.
Qed.

Section Formatter.
Variable log1024_floor : Z -> nat.

Lemma size_positive n :
  0 < n ->
  _size log1024_floor n
  = (p ← math_pow_1024 (log1024_floor n);
     x ← float_of_int n;
     unit ← tuple_index size_name (log1024_floor n);
     Returns (float_repr (round2 x p) ++ " " ++ unit)).
Proof.
  intros Hpos. unfold _size.
  destruct (Z.eqb_spec n 0); [lia|]. by destruct (Z.ltb_spec n 0); [lia|].
Qed.



End Formatter.




Lemma decimal_not_empty n : decimal n <> "".
Proof. unfold decimal. by destruct (N.to_uint (Z.to_N n)). Qed.





(** * Further properties *)

(** ** The parser *)

Lemma all_in_take_while cls s : all_in cls (take_while cls s) = true.
Proof.
  induction s as [|c s IH]; [done|]. cbn.
  destruct (cls c) eqn:Hc; [|done]. cbn. by rewrite Hc.
Qed.

Lemma id_here_digits s g : id_here s = Some g -> all_in Re.digit g = true /\ g <> "".
Proof.
  destruct s as [|c s]; [done|]. cbn [id_here].
  destruct (Ascii.eqb "/" c); [|done].
  pose proof (all_in_take_while Re.digit s) as Hall.
  destruct (take_while Re.digit s); [done|]. by intros [= <-].
Qed.

Lemma last_id_digits_only s g : last_id s = Some g -> all_in Re.digit g = true /\ g <> "".
Proof.
  induction s as [|c s IH]; [done|]. cbn [last_id].
  destruct (Re.dot c); [|apply id_here_digits].
  destruct (last_id s); [intros [= <-]; by apply IH | apply id_here_digits].
Qed.

Lemma digit_value_range c : Re.digit c = true -> 0 <= digit_value c <= 9.
Proof. destruct c as [[] [] [] [] [] [] [] []]; try done; by vm_compute. Qed.

Lemma int_digits_nonneg s acc : all_in Re.digit s = true -> 0 <= acc -> 0 <= int_digits acc s.
Proof.
  revert acc. induction s as [|c s IH]; intros acc; [done|]. cbn.
  intros [Hc Hs]%andb_true_iff Hacc. apply IH; [done|].
  pose proof (digit_value_range c Hc). lia.
Qed.

(** The fields that [parse_fields] reads are runs of digits. *)
Lemma parse_fields_digits line g1 g2 :
  parse_fields line = Some (g1, g2) ->
  all_in Re.digit g1 = true /\ all_in Re.digit g2 = true.
Proof.
  unfold parse_fields. pose proof (all_in_take_while Re.digit line) as Hg1.
  destruct (take_while Re.digit line) as [|d g]; [done|].
  destruct (drop_while Re.digit line) as [|c rest]; [done|].
  destruct (Re.space c); [|done].
  destruct (last_id _) as [g'|] eqn:Hlast; [|done].
  intros [= <- <-]. split; [done|]. by apply last_id_digits_only in Hlast as [? _].
Qed.

(** A line that does not start with a digit is never parsed: the empty
    line, a line that starts with whitespace, a message of the remote
    command. *)
Theorem parse_du_needs_leading_digit (line : string) :
  take_while Re.digit line = "" -> _parse_du line = Raises AttributeError.
Proof.
  intros H. rewrite parse_du_fields. unfold parse_fields. by rewrite H.
Qed.

Lemma parse_du_needs_leading_digit_witness :
  _parse_du "  23248 /opt/influxdb/data/ddbb/default/1939" = Raises AttributeError.
Proof. apply parse_du_needs_leading_digit. reflexivity. Defined.

(** What the pattern accepts, read from left to right: the digits at the
    start of the line are the size; at least one whitespace character must
    follow them; and the id is the run of digits after the last [/] followed
    by a digit that comes after that whitespace and before any newline.  The
    parser raises in every other case. *)
Theorem parse_du_reading (line : string) :
  _parse_du line =
  match parse_fields line with
  | Some (size, id) => Returns (py_int id, py_int size)
  | None => Raises AttributeError
  end.
Proof. apply parse_du_fields. Qed.

Lemma parse_du_range line id size :
  _parse_du line = Returns (id, size) -> 0 <= id /\ 0 <= size.
Proof.
  rewrite parse_du_fields.
  destruct (parse_fields line) as [[g1 g2]|] eqn:Hfields; [|done].
  apply parse_fields_digits in Hfields as [Hg1 Hg2].
  intros [= <- <-]. split; by apply int_digits_nonneg.
Qed.

(** The id and the size that the parser returns are never negative. *)
Theorem parse_du_non_negative (line : string) (id size : Z) :
  _parse_du line = Returns (id, size) -> 0 <= id /\ 0 <= size.
Proof. apply parse_du_range. Qed.

Lemma parse_du_non_negative_witness : 0 <= 1939 /\ 0 <= 23248.
Proof.
  apply (parse_du_non_negative "23248   /opt/influxdb/data/ddbb/default/1939").
  reflexivity.
Defined.

(** ** Printing and reading a number *)

Lemma int_digits_of_uint_acc d (acc : positive) :
  int_digits (Z.pos acc) (NilEmpty.string_of_uint d) = Z.pos (Pos.of_uint_acc d acc).
Proof.
  revert acc. induction d as [|d IH|d IH|d IH|d IH|d IH|d IH|d IH|d IH|d IH|d IH];
    intros acc; [done|..]; cbn [NilEmpty.string_of_uint int_digits Pos.of_uint_acc];
    rewrite <- IH; f_equal; vm_compute digit_value; lia.
Qed.

Lemma int_digits_of_uint d :
  int_digits 0 (NilEmpty.string_of_uint d) = Z.of_N (Pos.of_uint d).
Proof.
  induction d as [|d IH|d IH|d IH|d IH|d IH|d IH|d IH|d IH|d IH|d IH];
    [done|exact IH|..]; cbn [NilEmpty.string_of_uint int_digits Pos.of_uint Z.of_N];
    by rewrite <- int_digits_of_uint_acc.
Qed.

(** [int] reads back the digits of a number. *)
Lemma py_int_decimal n : 0 <= n -> py_int (decimal n) = n.
Proof.
  intros Hn. unfold py_int, decimal, NilZero.string_of_uint.
  transitivity (Z.of_N (N.of_uint (N.to_uint (Z.to_N n)))).
  - destruct (N.to_uint (Z.to_N n)) eqn:Hd; [done|..]; rewrite <- Hd; apply int_digits_of_uint.
  - rewrite DecimalN.Unsigned.of_to. lia.
Qed.

Lemma all_in_digit_uint d : all_in Re.digit (NilEmpty.string_of_uint d) = true.
Proof. induction d; [done|..]; cbn; exact IHd. Qed.

Lemma all_in_digit_decimal n : all_in Re.digit (decimal n) = true.
Proof.
  unfold decimal, NilZero.string_of_uint.
  destruct (N.to_uint (Z.to_N n)) eqn:Hd; [done|..]; rewrite <- Hd; apply all_in_digit_uint.
Qed.

(** A line as the remote command writes it, the size in decimal, whitespace,
    and a path that ends in the shard id in decimal, is parsed back to that
    id and that size, whatever the length of the whitespace. *)
Theorem parse_du_round_trip (size id : Z) (ws dir : string) :
  0 <= size -> 0 <= id ->
  ws <> "" -> all_in Re.space ws = true ->
  all_in Re.dot dir = true ->
  _parse_du (decimal size ++ ws ++ dir ++ "/" ++ decimal id) = Returns (id, size).
Proof.
  intros Hsize Hid Hws Hspaces Hdir.
  rewrite parse_du_fields, parse_fields_shape;
    auto using decimal_not_empty, all_in_digit_decimal.
  by rewrite !py_int_decimal.
Qed.

Lemma parse_du_round_trip_witness :
  _parse_du (decimal 23248 ++ String "009" "" ++ "/var/lib/influxdb/data/db/autogen"
             ++ "/" ++ decimal 1939)
  = Returns (1939, 23248).
Proof.
  apply parse_du_round_trip; [lia | lia | discriminate | reflexivity | reflexivity].
Defined.

(** ** The size index *)

Lemma collect_lines_entries lines (start idx : gmap Z Z) (id size : Z) :
  collect_lines lines start = Returns idx ->
  idx !! id = Some size ->
  start !! id = Some size \/
  exists line, line ∈ lines /\ _parse_du line = Returns (id, size).
Proof.
  revert start. induction lines as [|line lines IH]; intros start; cbn [collect_lines].
  { intros [= <-]. by left. }
  destruct (_parse_du line) as [[k v]|e] eqn:Hparse; [|done]. cbn.
  intros Hrun Hid. destruct (IH _ Hrun Hid) as [Hstart|(l & Hl & Hparse')].
  - destruct (decide (k = id)) as [->|Hne].
    + rewrite lookup_insert_eq in Hstart. injection Hstart as ->.
      right. exists line. split; [by left | done].
    + rewrite lookup_insert_ne in Hstart by done. by left.
  - right. exists l. split; [by right | done].
Qed.

(** Every entry of the index comes from a line of the output that reports
    this id with this size; ids and sizes in the index are never negative. *)
Theorem index_entries_come_from_lines (stdout_lines : list string) (idx : gmap Z Z)
    (id size : Z) :
  _get_all_shards_size stdout_lines = Returns idx ->
  idx !! id = Some size ->
  (exists line, line ∈ stdout_lines /\ _parse_du line = Returns (id, size)) /\
  0 <= id /\ 0 <= size.
Proof.
  intros Hrun Hid.
  destruct (collect_lines_entries _ _ _ _ _ Hrun Hid) as [Hempty|(line & Hline & Hparse)].
  { by rewrite lookup_empty in Hempty. }
  split; [by exists line|]. by apply (parse_du_range line).
Qed.

Lemma index_entries_come_from_lines_witness :
  (exists line,
      line ∈ ["100 /var/lib/influxdb/data/db/rp/7"; "200 /var/lib/influxdb/data/db/rp/8"] /\
      _parse_du line = Returns (8, 200)) /\
  0 <= 8 /\ 0 <= 200.
Proof.
  apply (index_entries_come_from_lines
           ["100 /var/lib/influxdb/data/db/rp/7"; "200 /var/lib/influxdb/data/db/rp/8"]
           (<[8 := 200]> (<[7 := 100]> ∅))); reflexivity.
Defined.

Lemma collect_lines_domain lines (start idx : gmap Z Z) (id : Z) :
  collect_lines lines start = Returns idx ->
  is_Some (idx !! id) <-> is_Some (start !! id) \/ existsb (reports id) lines = true.
Proof.
  revert start. induction lines as [|line lines IH]; intros start; cbn [collect_lines existsb].
  { intros [= <-]. split; [by left | by intros [?|?]]. }
  unfold reports at 1, line_entry.
  destruct (_parse_du line) as [[k v]|e] eqn:Hparse; [|done]. cbn.
  intros Hrun. rewrite (IH _ Hrun), orb_true_iff, Z.eqb_eq.
  destruct (decide (k = id)) as [->|Hne].
  - rewrite lookup_insert_eq. split; [intros _; right; by left | intros _; left; eauto].
  - rewrite lookup_insert_ne by done.
    split; [intros [?|?]; auto | intros [?|[?|?]]; auto; done].
Qed.

(** The index has an entry for a shard id exactly when some line of the
    output reports that id: for an id that no line reports,
    [_get_shard_size] gives [None]. *)
Theorem index_has_reported_ids (stdout_lines : list string) (idx : gmap Z Z) (id : Z) :
  _get_all_shards_size stdout_lines = Returns idx ->
  (is_Some (_get_shard_size idx id) <-> existsb (reports id) stdout_lines = true) /\
  (existsb (reports id) stdout_lines = false -> _get_shard_size idx id = None).
Proof.
  intros Hrun. unfold _get_shard_size.
  pose proof (collect_lines_domain _ _ _ id Hrun) as Hdom.
  rewrite lookup_empty in Hdom. split.
  - rewrite Hdom. split; [intros [[? [=]]|?]; done | by right].
  - intros Hnone. apply eq_None_not_Some. rewrite Hdom, Hnone.
    intros [[? [=]]|[=]].
Qed.

Lemma index_has_reported_ids_witness :
  _get_shard_size (<[8 := 200]> (<[7 := 100]> ∅)) 9 = None.
Proof.
  apply (index_has_reported_ids
           ["100 /var/lib/influxdb/data/db/rp/7"; "200 /var/lib/influxdb/data/db/rp/8"]);
    reflexivity.
Defined.

Lemma collect_lines_union lines (start idx rest : gmap Z Z) :
  collect_lines lines start = Returns idx ->
  collect_lines lines (start ∪ rest) = Returns (idx ∪ rest).
Proof.
  revert start. induction lines as [|line lines IH]; intros start; cbn [collect_lines].
  { by intros [= <-]. }
  destruct (_parse_du line) as [[k v]|e]; [|done]. cbn.
  intros Hrun. rewrite insert_union_l. by apply IH.
Qed.

(** Collecting the output in two parts: the index of [first ++ second] is
    that of [second] laid over that of [first], the entries of the second
    part taking precedence. *)
Theorem index_of_two_parts (first second : list string) (idx1 idx2 : gmap Z Z) :
  _get_all_shards_size first = Returns idx1 ->
  _get_all_shards_size second = Returns idx2 ->
  _get_all_shards_size (first ++ second) = Returns (idx2 ∪ idx1).
Proof.
  unfold _get_all_shards_size. intros H1 H2.
  rewrite collect_lines_app, H1. cbn.
  apply (collect_lines_union _ _ _ idx1) in H2. by rewrite (left_id_L ∅ (∪)) in H2.
Qed.

Lemma index_of_two_parts_witness :
  _get_all_shards_size
    (["100 /var/lib/influxdb/data/db/rp/7"] ++ ["200 /var/lib/influxdb/data/db/rp/7"])
  = Returns (<[7 := 200]> ∅ ∪ <[7 := 100]> ∅).
Proof. apply index_of_two_parts; reflexivity. Defined.

(** ** More on the formatter *)

Lemma float_of_int_overflow n : 2 ^ 1024 <= n -> float_of_int n = Raises OverflowError.
Proof.
  intros Hn. unfold float_of_int.
  assert (0 < 2 ^ 1024) as Hbig by (by apply Z.pow_pos_nonneg).
  assert (0 < n) as Hpos by lia.
  assert (1024 <= Z.log2 n) as Hlog by (by apply Z.log2_le_pow2).
  set (e := Z.log2 n - 52).
  destruct (Z.leb_spec e 0); [lia|].
  assert (0 < 2 ^ e) as Hpow by (apply Z.pow_pos_nonneg; lia).
  pose proof (round_half_even_bounds n (2 ^ e) Hpow) as [Hlo _].
  assert (2 ^ 52 <= n / 2 ^ e) as Hq.
  { destruct (Z.log2_spec n Hpos) as [Hl _].
    apply Z.div_le_lower_bound; [done|].
    rewrite <- Z.pow_add_r by lia. by replace (e + 52) with (Z.log2 n) by lia. }
  assert (2 ^ 1024 <= round_half_even n (2 ^ e) * 2 ^ e) as Hf.
  { transitivity (2 ^ 52 * 2 ^ e); [|apply Z.mul_le_mono_nonneg_r; lia].
    rewrite <- Z.pow_add_r by lia. apply Z.pow_le_mono_r; lia. }
  by destruct (Z.ltb_spec (round_half_even n (2 ^ e) * 2 ^ e) (2 ^ 1024)); [lia|].
Qed.

(** A count of [2^1024] or more is too large for the division by a float:
    the formatter raises OverflowError, whatever the logarithm gives. *)
Theorem size_overflow (log1024_floor : Z -> nat) (n : Z) :
  2 ^ 1024 <= n -> _size log1024_floor n = Raises OverflowError.
Proof.
  intros Hn. assert (0 < 2 ^ 1024) by (by apply Z.pow_pos_nonneg).
  rewrite size_positive by lia.
  rewrite math_pow_1024_spec, float_of_int_overflow by done.
  by destruct (log1024_floor n <=? 102)%nat.
Qed.

Lemma size_overflow_witness :
  _size exact_log1024_floor (2 ^ 1024) = Raises OverflowError.
Proof. apply size_overflow. lia. Defined.

(** A product of an int of at most 53 bits and a power of two is a float. *)
Lemma float_of_int_multiple k m :
  0 < k < 2 ^ 53 -> 0 <= m -> k * 2 ^ m < 2 ^ 1024 ->
  float_of_int (k * 2 ^ m) = Returns (k * 2 ^ m).
Proof.
  intros [Hk Hk'] Hm Hn. unfold float_of_int.
  assert (0 < 2 ^ m) as Hpm by (by apply Z.pow_pos_nonneg).
  rewrite Z.log2_mul_pow2 by lia.
  assert (Z.log2 k < 53) as Hlog by (by apply Z.log2_lt_pow2).
  set (e := m + Z.log2 k - 52).
  destruct (Z.leb_spec e 0).
  { by destruct (Z.ltb_spec (k * 2 ^ m) (2 ^ 1024)); [|lia]. }
  assert (0 < 2 ^ e) as Hpe by (apply Z.pow_pos_nonneg; lia).
  assert (k * 2 ^ m = k * 2 ^ (m - e) * 2 ^ e) as Hsplit.
  { rewrite <- Z.mul_assoc, <- Z.pow_add_r by lia. by replace (m - e + e) with m by lia. }
  assert (round_half_even (k * 2 ^ m) (2 ^ e) = k * 2 ^ (m - e)) as ->.
  { unfold round_half_even. rewrite Hsplit, Z.mod_mul, Z.div_mul by lia.
    by destruct (Z.ltb_spec (2 * 0) (2 ^ e)); [|lia]. }
  rewrite <- Hsplit. by destruct (Z.ltb_spec (k * 2 ^ m) (2 ^ 1024)); [|lia].
Qed.

(** A whole number of units is printed as that number with [.0]: when the
    index that the logarithm gives for [k * 1024^i] is [i], within the
    units, and [1 <= k < 1024], the text is [k.0], a space and the unit of
    index [i] (so 512 bytes are [512.0 B], while 0 bytes are [0B]). *)
Theorem size_of_whole_units (log1024_floor : Z -> nat) (k : Z) (i : nat) :
  1 <= k < 1024 -> (i <= 8)%nat ->
  log1024_floor (k * 1024 ^ Z.of_nat i) = i ->
  exists unit,
    size_name !! i = Some unit /\
    _size log1024_floor (k * 1024 ^ Z.of_nat i) = Returns (decimal k ++ ".0 " ++ unit).
Proof.
  intros [Hk Hk'] Hi Hlog.
  assert (exists unit, size_name !! i = Some unit) as [unit Hunit].
  { apply lookup_lt_is_Some. cbn. lia. }
  exists unit. split; [done|].
  assert (0 < 1024 ^ Z.of_nat i) as Hp by (apply Z.pow_pos_nonneg; lia).
  rewrite size_positive, Hlog by nia.
  rewrite math_pow_1024_spec. destruct (Nat.leb_spec i 102); [|lia].
  rewrite <- pow_1024, float_of_int_multiple.
  - unfold tuple_index. rewrite Hunit. cbn. f_equal.
    unfold round2, round_half_even. rewrite pow_1024.
    replace (100 * (k * 1024 ^ Z.of_nat i)) with (100 * k * 1024 ^ Z.of_nat i) by lia.
    rewrite Z.mod_mul, Z.div_mul by lia.
    destruct (Z.ltb_spec (2 * 0) (1024 ^ Z.of_nat i)); [|lia].
    unfold float_repr. rewrite Z.mul_comm, Z.mod_mul, Z.div_mul by lia.
    change (0 mod 10 =? 0) with true. change (decimal (0 / 10)) with "0". cbv iota.
    by rewrite !append_assoc.
  - split; [lia|]. eapply Z.lt_trans; [exact Hk'|]. done.
  - lia.
  - rewrite pow_1024.
    assert (1024 ^ Z.of_nat i <= 1024 ^ 8) by (apply Z.pow_le_mono_r; lia).
    assert (1024 * 1024 ^ 8 < 2 ^ 1024) by reflexivity.
    nia.
Qed.

Lemma size_of_whole_units_witness :
  exists unit,
    size_name !! 3%nat = Some unit /\
    _size exact_log1024_floor (512 * 1024 ^ Z.of_nat 3)
    = Returns (decimal 512 ++ ".0 " ++ unit).
Proof. apply size_of_whole_units; [lia | lia | reflexivity]. Defined.

(** ** More on the report *)

Lemma size_exceptions log1024_floor n e :
  _size log1024_floor n = Raises e ->
  (n < 0 /\ e = ValueError) \/ (0 < n /\ (e = OverflowError \/ e = IndexError)).
Proof.
  destruct (Z.lt_trichotomy n 0) as [Hn|[->|Hn]].
  - unfold _size. destruct (Z.eqb_spec n 0); [lia|].
    destruct (Z.ltb_spec n 0); [|lia]. intros [= <-]. by left.
  - done.
  - rewrite size_positive by done. unfold math_pow_1024, float_of_int, tuple_index.
    intros H. right. split; [done|]. revert H.
    repeat match goal with
           | |- context [if ?b then _ else _] => destruct b
           | |- context [match ?o with Some _ => _ | None => _ end] => destruct o
           end; cbn; intros [= <-]; auto.
Qed.

Lemma sum_Z_nonneg l : Forall (fun x => 0 <= x) l -> 0 <= sum_Z l.
Proof. unfold sum_Z. induction 1; cbn; lia. Qed.

Lemma sum_Z_le l1 l2 : Forall2 Z.le l1 l2 -> sum_Z l1 <= sum_Z l2.
Proof. unfold sum_Z. induction 1; cbn; lia. Qed.

Section Sizes.
Variables from_date to_date : datetime.
Variable idx : gmap Z Z.
Hypothesis idx_non_negative : map_Forall (fun _ size => 0 <= size) idx.

Lemma contribution_nonneg s : 0 <= contribution from_date to_date idx s.
Proof.
  unfold contribution. destruct (in_window _ _ s); [|done].
  destruct (idx !! shard_id s) as [size|] eqn:Hs; [|done].
  by apply (idx_non_negative _ _ Hs).
Qed.

Lemma group_size_nonneg group : 0 <= group_size from_date to_date idx group.
Proof.
  rewrite group_size_sum. apply sum_Z_nonneg, Forall_fmap, Forall_forall.
  intros s _. apply contribution_nonneg.
Qed.

End Sizes.

Section Exceptions.
Variable log1024_floor : Z -> nat.
Variable influx_db : option string.
Variable full : bool.
Variables from_date to_date : datetime.
Variable idx : gmap Z Z.

Local Abbreviation step := (shards_group log1024_floor influx_db full from_date to_date idx).
Local Abbreviation loop := (shards_loop log1024_floor influx_db full from_date to_date idx).
Local Abbreviation size_of := (group_size from_date to_date idx).

(** What makes a step of the loop raise: the name of the database is not
    bound yet, or the total of the group cannot be formatted. *)
Lemma shards_group_raises st group e :
  step st group = Raises e ->
  (e = UnboundLocalError /\ database_of st group = None) \/
  _size log1024_floor (size_of group) = Raises e.
Proof.
  unfold shards_group. fold (database_of st group).
  rewrite fold_shard_step, <- group_size_sum. cbn [fst snd]. rewrite Z.add_0_l.
  unfold mbind, result_bind, mret, result_ret.
  destruct (truthy influx_db).
  - destruct (database_of st group) as [d|]; cbn [read_local]; [|intros [= <-]; by left].
    destruct (negb _); [done|]. rewrite orb_true_r.
    destruct (_size log1024_floor _) as [size_text|e']; [done|]. intros [= <-]. by right.
  - rewrite orb_false_r. destruct full; [|done].
    destruct (_size log1024_floor _) as [size_text|e']; [|intros [= <-]; by right].
    destruct (database_of st group) as [d|]; cbn [read_local]; [done|].
    intros [= <-]. by left.
Qed.

Lemma shards_loop_bound groups st e :
  database_var st <> None -> loop groups st = Raises e -> e <> UnboundLocalError.
Proof.
  revert st. induction groups as [|g groups IH]; intros st Hbound; cbn [shards_loop]; [done|].
  unfold mbind, result_bind. destruct (step st g) as [st1|e1] eqn:Hg.
  - apply IH. apply shards_group_returns in Hg as [-> _]. by destruct g.
  - intros [= <-]. apply shards_group_raises in Hg as [[_ Hnone]|Hsize].
    + by destruct g.
    + apply size_exceptions in Hsize. intros ->.
      by destruct Hsize as [[_ [=]]|[_ [[=]|[=]]]].
Qed.

Lemma shards_loop_unbound groups e :
  loop groups initial_state = Raises e -> e = UnboundLocalError -> head groups = Some [].
Proof.
  destruct groups as [|g groups]; [done|]. destruct g as [|s g]; [done|].
  cbn [shards_loop]. unfold mbind, result_bind.
  destruct (step initial_state (s :: g)) as [st1|e1] eqn:Hg.
  - intros Hloop ->. apply shards_loop_bound in Hloop; [done|].
    apply shards_group_returns in Hg as [-> _]. done.
  - intros [= <-] ->. apply shards_group_raises in Hg as [[_ [=]]|Hsize].
    apply size_exceptions in Hsize. by destruct Hsize as [[_ [=]]|[_ [[=]|[=]]]].
Qed.

Lemma shards_loop_total_nonneg groups st st' :
  map_Forall (fun _ size => 0 <= size) idx ->
  loop groups st = Returns st' -> 0 <= total_size st -> 0 <= total_size st'.
Proof.
  intros Hidx. revert st. induction groups as [|g groups IH]; intros st; cbn [shards_loop].
  { by intros [= <-]. }
  unfold mbind, result_bind. destruct (step st g) as [st1|e1] eqn:Hg; [|done].
  intros Hloop Hst. apply (IH st1 Hloop).
  pose proof (group_size_nonneg from_date to_date idx Hidx g).
  apply shards_group_returns in Hg as [_ [(_ & _ & -> & _)|(_ & -> & _)]]; lia.
Qed.

Lemma shards_loop_no_value_error groups st :
  map_Forall (fun _ size => 0 <= size) idx ->
  loop groups st <> Raises ValueError.
Proof.
  intros Hidx. revert st. induction groups as [|g groups IH]; intros st; cbn [shards_loop]; [done|].
  unfold mbind, result_bind. destruct (step st g) as [st1|e1] eqn:Hg; [apply IH|].
  intros [= ->]. apply shards_group_raises in Hg as [[[=] _]|Hsize].
  apply size_exceptions in Hsize.
  pose proof (group_size_nonneg from_date to_date idx Hidx g).
  destruct Hsize as [[? _]|[_ [[=]|[=]]]]. lia.
Qed.

Lemma shards_loop_no_attribute_error groups st : loop groups st <> Raises AttributeError.
Proof.
  revert st. induction groups as [|g groups IH]; intros st; cbn [shards_loop]; [done|].
  unfold mbind, result_bind. destruct (step st g) as [st1|e1] eqn:Hg; [apply IH|].
  intros [= ->]. apply shards_group_raises in Hg as [[[=] _]|Hsize].
  apply size_exceptions in Hsize. by destruct Hsize as [[_ [=]]|[_ [[=]|[=]]]].
Qed.

End Exceptions.

Lemma index_non_negative lines (idx : gmap Z Z) :
  _get_all_shards_size lines = Returns idx ->
  map_Forall (fun _ size => 0 <= size) idx.
Proof.
  intros Hrun id size Hid.
  destruct (collect_lines_entries _ _ _ _ _ Hrun Hid) as [Hempty|(line & _ & Hparse)].
  - by rewrite lookup_empty in Hempty.
  - by apply parse_du_range in Hparse as [_ ?].
Qed.

Section Pipeline.
Variable log1024_floor : Z -> nat.
Variable influx_db : option string.
Variable full : bool.
Variables from_date to_date : datetime.

Local Abbreviation run := (shards log1024_floor influx_db full from_date to_date).

Lemma shards_raises stdout_lines groups e :
  run stdout_lines groups = Raises e ->
  (e = AttributeError /\ forallb well_formed stdout_lines = false) \/
  (exists idx,
      _get_all_shards_size stdout_lines = Returns idx /\
      (shards_loop log1024_floor influx_db full from_date to_date idx groups initial_state
       = Raises e \/
       exists st,
         shards_loop log1024_floor influx_db full from_date to_date idx groups
           initial_state = Returns st /\
         _size log1024_floor (total_size st) = Raises e)).
Proof.
  unfold shards, shards_report, mbind, result_bind, _get_all_shards_size.
  destruct (forallb well_formed stdout_lines) eqn:Hlines.
  - rewrite collect_lines_well_formed by done. intros H. right.
    exists (fold_left store (omap line_entry stdout_lines) ∅). split; [done|].
    destruct (shards_loop _ _ _ _ _ _ groups initial_state) as [st|e'].
    + right. exists st. split; [done|]. destruct (truthy influx_db); [done|].
      by destruct (_size log1024_floor (total_size st)); [|injection H as ->].
    + left. by injection H as ->.
  - rewrite collect_lines_malformed by done. intros [= <-]. by left.
Qed.

End Pipeline.

(** The report ends with AttributeError exactly when a line of the remote
    output is malformed: the groups and the formatter never raise it. *)
Theorem attribute_error_means_malformed_line (log1024_floor : Z -> nat)
    (influx_db : option string) (full : bool) (from_date to_date : datetime)
    (stdout_lines : list string) (groups : list (list ShardRecord)) :
  shards log1024_floor influx_db full from_date to_date stdout_lines groups
  = Raises AttributeError
  <-> forallb well_formed stdout_lines = false.
Proof.
  split.
  - intros [[_ ?]|(idx & Hidx & [Hloop|(st & _ & Hsize)])]%shards_raises; [done|..].
    + by apply shards_loop_no_attribute_error in Hloop.
    + apply size_exceptions in Hsize. by destruct Hsize as [[_ [=]]|[_ [[=]|[=]]]].
  - intros Hlines. unfold shards, _get_all_shards_size.
    by rewrite collect_lines_malformed.
Qed.

(** The formatter is never given a negative number: sizes are read from
    digits, so the totals are not negative, and the report never ends with
    the ValueError that [math.log] raises for a negative number. *)
Theorem report_never_value_error (log1024_floor : Z -> nat)
    (influx_db : option string) (full : bool) (from_date to_date : datetime)
    (stdout_lines : list string) (groups : list (list ShardRecord)) :
  shards log1024_floor influx_db full from_date to_date stdout_lines groups
  <> Raises ValueError /\
  forall rep,
    shards log1024_floor influx_db full from_date to_date stdout_lines groups
    = Returns rep ->
    0 <= total_size rep.
Proof.
  split.
  - intros [[[=] _]|(idx & Hidx & [Hloop|(st & Hloop & Hsize)])]%shards_raises.
    + apply index_non_negative in Hidx. by apply shards_loop_no_value_error in Hloop.
    + apply index_non_negative in Hidx.
      apply shards_loop_total_nonneg in Hloop; [|done..].
      apply size_exceptions in Hsize. destruct Hsize as [[? _]|[_ [[=]|[=]]]]. lia.
  - intros rep. unfold shards, shards_report, mbind, result_bind.
    destruct (_get_all_shards_size stdout_lines) as [idx|e] eqn:Hidx; [|done].
    apply index_non_negative in Hidx.
    destruct (shards_loop _ _ _ _ _ _ groups initial_state) as [st|e] eqn:Hloop; [|done].
    apply shards_loop_total_nonneg in Hloop; [|done..].
    destruct (truthy influx_db); [by intros [= <-]|].
    destruct (_size log1024_floor (total_size st)); [|done]. by intros [= <-].
Qed.

(** The report ends with UnboundLocalError only when the first group of the
    query result is empty: once a group with a record has been seen, the
    name of the database is bound for the rest of the loop. *)
Theorem unbound_database_needs_empty_first_group (log1024_floor : Z -> nat)
    (influx_db : option string) (full : bool) (from_date to_date : datetime)
    (stdout_lines : list string) (groups : list (list ShardRecord)) :
  shards log1024_floor influx_db full from_date to_date stdout_lines groups
  = Raises UnboundLocalError ->
  head groups = Some [].
Proof.
  intros [[[=] _]|(idx & Hidx & [Hloop|(st & _ & Hsize)])]%shards_raises.
  - by apply shards_loop_unbound in Hloop.
  - apply size_exceptions in Hsize. by destruct Hsize as [[_ [=]]|[_ [[=]|[=]]]].
Qed.

Lemma unbound_database_needs_empty_first_group_witness :
  head [[]; [Shard 10 "metrics" (Datetime 2020 1 1 0 0 0) (Datetime 2020 2 1 0 0 0)]]
  = Some [].
Proof.
  apply (unbound_database_needs_empty_first_group exact_log1024_floor None true
           (Datetime 2020 1 1 0 0 0) (Datetime 2020 12 31 0 0 0)
           ["2048  /var/lib/influxdb/data/metrics/autogen/10"]).
  reflexivity.
Defined.

Lemma attribute_error_means_malformed_line_witness :
  shards exact_log1024_floor None true (Datetime 2020 1 1 0 0 0) (Datetime 2020 12 31 0 0 0)
    ["du: cannot read directory: Permission denied";
     "2048  /var/lib/influxdb/data/metrics/autogen/10"] []
  = Raises AttributeError.
Proof. apply attribute_error_means_malformed_line. reflexivity. Defined.

Lemma report_never_value_error_witness :
  0 <= total_size (LoopState None 0 [Total "0B"] [] []).
Proof.
  apply (report_never_value_error exact_log1024_floor None false
           (Datetime 2020 1 1 0 0 0) (Datetime 2020 12 31 0 0 0) [] []).
  reflexivity.
Defined.

(** ** What the report contains *)

Section Contents.
Variable log1024_floor : Z -> nat.
Variable influx_db : option string.
Variable full : bool.
Variables from_date to_date : datetime.
Variable idx : gmap Z Z.

Local Abbreviation step := (shards_group log1024_floor influx_db full from_date to_date idx).
Local Abbreviation loop := (shards_loop log1024_floor influx_db full from_date to_date idx).
Local Abbreviation size_of := (group_size from_date to_date idx).
Local Abbreviation result_of := (group_result from_date to_date idx).

Lemma shards_loop_contents groups st st' :
  forallb non_empty groups = true ->
  loop groups st = Returns st' ->
  let chosen := List.filter (selected influx_db) groups in
  total_size st' = total_size st + sum_Z (size_of <$> chosen) /\
  emitted st'
  = (emitted st ++ if full || truthy influx_db then result_of <$> chosen else [])%list /\
  (Forall2 (line_for log1024_floor) (emitted st) (stdout st) ->
   Forall2 (line_for log1024_floor) (emitted st') (stdout st')).
Proof.
  revert st. induction groups as [|g groups IH]; intros st; cbn [forallb shards_loop].
  { intros _ [= <-]. cbn. split; [lia|]. split; [|done].
    destruct (full || truthy influx_db); by rewrite app_nil_r. }
  intros [Hg Hgroups]%andb_true_iff. unfold mbind, result_bind.
  destruct (step st g) as [st1|e] eqn:Hstep; [|done]. intros Hloop.
  destruct (IH st1 Hgroups Hloop) as (Htotal & Hemitted & Hlines). clear IH.
  destruct g as [|s g]; [done|].
  apply shards_group_returns in Hstep
    as [_ [(Hdb & Hne & Ht & Hout & Hem & _)|(Hproc & Ht & _ & Hout)]].
  - assert (selected influx_db (s :: g) = false) as Hsel.
    { unfold selected. rewrite Hdb. cbn. by rewrite bool_decide_eq_false_2. }
    cbn [List.filter]. rewrite Hsel. rewrite Ht in Htotal.
    rewrite Hem in Hemitted, Hlines. rewrite Hout in Hlines. by repeat split.
  - assert (selected influx_db (s :: g) = true) as Hsel by (by apply Is_true_true).
    cbn [List.filter]. rewrite Hsel, fmap_cons, sum_Z_cons.
    split; [lia|]. destruct (full || truthy influx_db).
    + destruct Hout as (size_text & d & Hsize & [= <-] & Hout & Hem).
      rewrite Hem in Hemitted. split; [by rewrite Hemitted, <- app_assoc|].
      intros Hst. apply Hlines. rewrite Hem, Hout.
      apply Forall2_app; [done|]. constructor; [|done]. by exists size_text.
    + destruct Hout as [Hout Hem]. rewrite Hem in Hemitted. rewrite Hout, Hem in Hlines.
      by split.
Qed.

End Contents.

(** When every group has a record, the report is that of the groups the
    filter lets through (all of them without a filter), in the order of the
    query result: the grand total is the sum of their totals; with [--full]
    or a filter there is one per-database line for each of them, showing its
    formatted total and the database of its first record; and the [TOTAL]
    line follows when no filter is set. *)
Theorem report_contents (log1024_floor : Z -> nat) (influx_db : option string)
    (full : bool) (from_date to_date : datetime) (idx : gmap Z Z)
    (groups : list (list ShardRecord)) (rep : loop_state) :
  forallb non_empty groups = true ->
  shards_report log1024_floor influx_db full from_date to_date idx groups = Returns rep ->
  let chosen := List.filter (selected influx_db) groups in
  total_size rep = sum_Z (group_size from_date to_date idx <$> chosen) /\
  emitted rep
  = (if full || truthy influx_db
     then group_result from_date to_date idx <$> chosen else []) /\
  exists lines,
    Forall2 (line_for log1024_floor) (emitted rep) lines /\
    if truthy influx_db then stdout rep = lines
    else exists size_text,
        _size log1024_floor (total_size rep) = Returns size_text /\
        stdout rep = (lines ++ [Total size_text])%list.
Proof.
  intros Hgroups. unfold shards_report, mbind, result_bind.
  destruct (shards_loop _ _ _ _ _ _ groups initial_state) as [st|e] eqn:Hloop; [|done].
  apply shards_loop_contents in Hloop as (Htotal & Hemitted & Hlines); [|done].
  cbn in Htotal, Hemitted. specialize (Hlines ltac:(constructor)).
  destruct (truthy influx_db).
  - intros [= <-]. split; [done|]. split; [done|]. by exists (stdout st).
  - destruct (_size log1024_floor (total_size st)) as [size_text|e] eqn:Hsize; [|done].
    intros [= <-]. cbn. split; [done|]. split; [done|].
    exists (stdout st). split; [done|]. by exists size_text.
Qed.

Lemma report_contents_witness :
  let from_date := Datetime 2020 1 1 0 0 0 in
  let to_date := Datetime 2020 12 31 0 0 0 in
  let idx : gmap Z Z := <[20 := 1024]> (<[10 := 2048]> ∅) in
  let s10 := Shard 10 "metrics" (Datetime 2020 1 1 0 0 0) (Datetime 2020 2 1 0 0 0) in
  let s20 := Shard 20 "logs" (Datetime 2020 3 1 0 0 0) (Datetime 2020 4 1 0 0 0) in
  let rep := LoopState (Some "logs") 1024 [PerDatabase "1.0 KB" "logs"]
               [DatabaseSize "logs" 1024] [] in
  let chosen := List.filter (selected (Some "logs")) [[s10]; [s20]] in
  total_size rep = sum_Z (group_size from_date to_date idx <$> chosen) /\
  emitted rep = (group_result from_date to_date idx <$> chosen) /\
  exists lines,
    Forall2 (line_for exact_log1024_floor) (emitted rep) lines /\
    stdout rep = lines.
Proof.
  intros from_date to_date idx s10 s20 rep chosen.
  apply (report_contents exact_log1024_floor (Some "logs") false from_date to_date idx
           [[s10]; [s20]] rep); reflexivity.
Defined.

Section Quiet.
Variable log1024_floor : Z -> nat.
Variable influx_db : option string.
Variables from_date to_date : datetime.
Variable idx : gmap Z Z.
Hypothesis no_filter : truthy influx_db = false.

(** Without a filter and without [--full] the loop reads neither the name
    of the database nor the formatter: it always returns. *)
Lemma shards_loop_quiet_returns groups st :
  exists st',
    shards_loop log1024_floor influx_db false from_date to_date idx groups st
    = Returns st' /\
    total_size st'
    = total_size st + sum_Z (group_size from_date to_date idx <$> groups) /\
    stdout st' = stdout st.
Proof.
  revert st. induction groups as [|g groups IH]; intros st; cbn [shards_loop].
  { exists st. cbn. split; [done|]. split; [lia|done]. }
  unfold shards_group. rewrite no_filter, fold_shard_step, <- group_size_sum.
  cbn [fst snd orb mbind result_bind mret result_ret].
  unfold mbind, result_bind, mret, result_ret. cbn [fst snd].
  edestruct IH as (st' & Hloop & Htotal & Hout). exists st'. split; [exact Hloop|].
  rewrite Htotal, Hout, fmap_cons, sum_Z_cons. cbn. split; [lia|done].
Qed.

End Quiet.

(** Without a database filter and without [--full], whatever the groups
    (empty ones and an empty query result included), the report is the one
    line [TOTAL] with the formatted sum of the totals of all groups, and
    the only way it can fail is the formatter failing on that sum. *)
Theorem quiet_report (log1024_floor : Z -> nat) (influx_db : option string)
    (from_date to_date : datetime) (idx : gmap Z Z) (groups : list (list ShardRecord)) :
  truthy influx_db = false ->
  let total := sum_Z (group_size from_date to_date idx <$> groups) in
  match _size log1024_floor total with
  | Returns size_text =>
      exists rep,
        shards_report log1024_floor influx_db false from_date to_date idx groups
        = Returns rep /\
        stdout rep = [Total size_text] /\ total_size rep = total
  | Raises e =>
      shards_report log1024_floor influx_db false from_date to_date idx groups = Raises e
  end.
Proof.
  intros Hdb total. unfold shards_report.
  destruct (shards_loop_quiet_returns log1024_floor influx_db from_date to_date idx Hdb
              groups initial_state) as (st & -> & Htotal & Hout).
  change (total_size initial_state) with 0 in Htotal. rewrite Z.add_0_l in Htotal.
  change (stdout initial_state) with (@nil printed_line) in Hout.
  unfold mbind, result_bind. rewrite Hdb, Htotal. fold total.
  destruct (_size log1024_floor total) as [size_text|e]; [|done].
  eexists. split; [done|]. cbn. by rewrite Hout.
Qed.

Lemma quiet_report_witness :
  exists rep,
    shards_report exact_log1024_floor None false
      (Datetime 2020 1 1 0 0 0) (Datetime 2020 12 31 0 0 0) ∅ [] = Returns rep /\
    stdout rep = [Total "0B"] /\ total_size rep = 0.
Proof.
  apply (quiet_report exact_log1024_floor None (Datetime 2020 1 1 0 0 0)
           (Datetime 2020 12 31 0 0 0) ∅ []).
  reflexivity.
Defined.

(** ** The window *)

Ltac compare_fields x y z :=
  destruct (Z.compare_spec x y), (Z.compare_spec y z), (Z.compare_spec x z);
  cbn [lexico]; try done; try lia.

Lemma datetime_le_trans a b c :
  datetime_le a b = true -> datetime_le b c = true -> datetime_le a c = true.
Proof.
  rewrite !datetime_le_spec. destruct a, b, c. unfold datetime_compare.
  cbn [year month day hour minute second].
  compare_fields year0 year1 year2; compare_fields month0 month1 month2;
  compare_fields day0 day1 day2; compare_fields hour0 hour1 hour2;
  compare_fields minute0 minute1 minute2; compare_fields second0 second1 second2.
Qed.

Lemma in_window_wider from_date to_date from_date' to_date' s :
  datetime_le from_date' from_date = true -> datetime_le to_date to_date' = true ->
  in_window from_date to_date s = true -> in_window from_date' to_date' s = true.
Proof.
  unfold in_window. intros Hfrom Hto [Hstart Hend]%andb_true_iff.
  apply andb_true_iff. split; eauto using datetime_le_trans.
Qed.

(** A wider window never gives a smaller total: with the sizes of the
    index not negative, moving [from] back and [to] forward keeps every
    shard that counted and can only add shards. *)
Theorem wider_window_counts_more (from_date to_date from_date' to_date' : datetime)
    (idx : gmap Z Z) (group : list ShardRecord) :
  map_Forall (fun _ size => 0 <= size) idx ->
  datetime_le from_date' from_date = true ->
  datetime_le to_date to_date' = true ->
  group_size from_date to_date idx group <= group_size from_date' to_date' idx group.
Proof.
  intros Hidx Hfrom Hto. rewrite !group_size_sum.
  apply sum_Z_le, Forall2_fmap, Forall2_same_length_lookup_2; [done|].
  intros i s s' Hs Hs'. assert (s' = s) as -> by congruence.
  unfold contribution at 1.
  destruct (in_window from_date to_date s) eqn:Hwin.
  - unfold contribution. by rewrite (in_window_wider _ _ _ _ _ Hfrom Hto Hwin).
  - by apply contribution_nonneg.
Qed.

Lemma wider_window_counts_more_witness :
  let idx : gmap Z Z := <[11 := 512]> (<[10 := 2048]> ∅) in
  let group := [Shard 10 "metrics" (Datetime 2020 1 1 0 0 0) (Datetime 2020 2 1 0 0 0);
                Shard 11 "metrics" (Datetime 2021 1 1 0 0 0) (Datetime 2021 2 1 0 0 0)] in
  group_size (Datetime 2020 1 1 0 0 0) (Datetime 2020 12 31 0 0 0) idx group
  <= group_size (Datetime 2000 1 1 0 0 0) (Datetime 2099 1 1 0 0 0) idx group.
Proof.
  intros idx group. apply wider_window_counts_more; [|reflexivity..].
  apply map_Forall_insert_2; [lia|]. apply map_Forall_insert_2; [lia|].
  apply map_Forall_empty.
Defined.

Lemma sum_Z_permutation l1 l2 : l1 ≡ₚ l2 -> sum_Z l1 = sum_Z l2.
Proof. unfold sum_Z. induction 1; cbn; lia. Qed.

(** The total of a group does not depend on the order of its records. *)
Theorem group_total_ignores_order (from_date to_date : datetime) (idx : gmap Z Z)
    (group group' : list ShardRecord) :
  group ≡ₚ group' ->
  group_size from_date to_date idx group = group_size from_date to_date idx group'.
Proof.
  intros Hperm. rewrite !group_size_sum. apply sum_Z_permutation. by rewrite Hperm.
Qed.

Lemma group_total_ignores_order_witness :
  let idx : gmap Z Z := <[11 := 512]> (<[10 := 2048]> ∅) in
  let s10 := Shard 10 "metrics" (Datetime 2020 1 1 0 0 0) (Datetime 2020 2 1 0 0 0) in
  let s11 := Shard 11 "metrics" (Datetime 2020 3 1 0 0 0) (Datetime 2020 4 1 0 0 0) in
  group_size (Datetime 2020 1 1 0 0 0) (Datetime 2020 12 31 0 0 0) idx [s10; s11]
  = group_size (Datetime 2020 1 1 0 0 0) (Datetime 2020 12 31 0 0 0) idx [s11; s10].
Proof. intros idx s10 s11. apply group_total_ignores_order. apply perm_swap. Defined.

(** ** The filter and [--full] *)

Section Options.
Variable log1024_floor : Z -> nat.
Variable influx_db : option string.
Variable full : bool.
Variables from_date to_date : datetime.
Variable idx : gmap Z Z.

Local Abbreviation loop := (shards_loop log1024_floor influx_db full from_date to_date idx).

(** Without a filter every group counts, with or without a record. *)
Lemma shards_loop_total groups st st' :
  truthy influx_db = false ->
  loop groups st = Returns st' ->
  total_size st'
  = total_size st + sum_Z (group_size from_date to_date idx <$> groups).
Proof.
  intros Hdb. revert st. induction groups as [|g groups IH]; intros st; cbn [shards_loop].
  { intros [= <-]. cbn. lia. }
  unfold mbind, result_bind.
  destruct (shards_group _ _ _ _ _ _ st g) as [st1|e] eqn:Hg; [|done].
  intros Hloop. rewrite (IH _ Hloop), fmap_cons, sum_Z_cons.
  apply shards_group_returns in Hg as [_ [(Hdb' & _)|(_ & -> & _)]]; [congruence|lia].
Qed.

(** Groups of other databases are passed over. *)
Lemma shards_loop_no_match groups st :
  truthy influx_db = true ->
  forallb (fun g => non_empty g && negb (selected influx_db g)) groups = true ->
  exists st',
    loop groups st = Returns st' /\
    total_size st' = total_size st /\ stdout st' = stdout st /\
    emitted st' = emitted st /\ debug_log st' = debug_log st.
Proof.
  intros Hdb. revert st. induction groups as [|g groups IH]; intros st; cbn [forallb shards_loop].
  { intros _. by exists st. }
  intros [[Hg Hsel]%andb_true_iff Hgroups]%andb_true_iff.
  destruct g as [|s g]; [done|].
  unfold selected in Hsel. rewrite Hdb in Hsel. cbn in Hsel.
  apply negb_true_iff in Hsel.
  unfold shards_group. rewrite Hdb. cbn [read_local].
  unfold mbind, result_bind, mret, result_ret.
  replace (bool_decide (Some (database s) = influx_db)) with false. cbn [negb].
  edestruct (IH (LoopState (Some (database s)) (total_size st) (stdout st) (emitted st)
                   (debug_log st)) Hgroups) as (st' & Hloop & Hrest).
  exists st'. by split.
Qed.

End Options.

(** With a database filter that no group matches (every group having a
    record), the report returns, writes no line at all, not even [TOTAL],
    and its total is 0. *)
Theorem filter_without_match (log1024_floor : Z -> nat) (influx_db : option string)
    (full : bool) (from_date to_date : datetime) (idx : gmap Z Z)
    (groups : list (list ShardRecord)) :
  truthy influx_db = true ->
  forallb (fun g => non_empty g && negb (selected influx_db g)) groups = true ->
  exists rep,
    shards_report log1024_floor influx_db full from_date to_date idx groups
    = Returns rep /\
    stdout rep = [] /\ emitted rep = [] /\ total_size rep = 0 /\ debug_log rep = [].
Proof.
  intros Hdb Hgroups. unfold shards_report.
  destruct (shards_loop_no_match log1024_floor influx_db full from_date to_date idx
              groups initial_state Hdb Hgroups) as (st & -> & Ht & Hout & Hem & Hlog).
  unfold mbind, result_bind. rewrite Hdb. exists st.
  split; [done|]. split; [exact Hout|]. split; [exact Hem|]. split; [exact Ht|exact Hlog].
Qed.

Lemma filter_without_match_witness :
  exists rep,
    shards_report exact_log1024_floor (Some "logs") true
      (Datetime 2020 1 1 0 0 0) (Datetime 2020 12 31 0 0 0) (<[10 := 2048]> ∅)
      [[Shard 10 "metrics" (Datetime 2020 1 1 0 0 0) (Datetime 2020 2 1 0 0 0)]]
    = Returns rep /\
    stdout rep = [] /\ emitted rep = [] /\ total_size rep = 0 /\ debug_log rep = [].
Proof. apply filter_without_match; reflexivity. Defined.

(** Without a database filter, [--full] only adds lines: when the report
    with [--full] returns, so does the report without it, with the same
    grand total, and the lines with [--full] are per-database lines followed
    by the one line of the report without it. *)
Theorem full_only_adds_lines (log1024_floor : Z -> nat) (influx_db : option string)
    (from_date to_date : datetime) (idx : gmap Z Z)
    (groups : list (list ShardRecord)) (rep : loop_state) :
  truthy influx_db = false ->
  shards_report log1024_floor influx_db true from_date to_date idx groups = Returns rep ->
  exists rep' lines,
    shards_report log1024_floor influx_db false from_date to_date idx groups
    = Returns rep' /\
    total_size rep' = total_size rep /\
    stdout rep = (lines ++ stdout rep')%list /\
    forallb (fun l => negb (is_total_line l)) lines = true.
Proof.
  intros Hdb. unfold shards_report at 1. unfold mbind, result_bind.
  destruct (shards_loop _ _ true _ _ _ groups initial_state) as [st|e] eqn:Hloop; [|done].
  rewrite Hdb.
  destruct (_size log1024_floor (total_size st)) as [size_text|e] eqn:Hsize; [|done].
  intros [= <-]. cbn [total_size stdout].
  pose proof (shards_loop_total _ _ _ _ _ _ _ _ _ Hdb Hloop) as Htotal.
  apply shards_loop_no_total in Hloop; [|done].
  destruct (shards_loop_quiet_returns log1024_floor influx_db from_date to_date idx Hdb
              groups initial_state) as (st' & Hloop' & Htotal' & Hout').
  unfold shards_report, mbind, result_bind. rewrite Hloop', Hdb.
  assert (total_size st' = total_size st) as Heq by congruence.
  rewrite Heq, Hsize. eexists _, (stdout st). split; [done|]. cbn.
  rewrite Hout'. by split.
Qed.

Lemma full_only_adds_lines_witness :
  exists rep' lines,
    shards_report exact_log1024_floor None false
      (Datetime 2020 1 1 0 0 0) (Datetime 2020 12 31 0 0 0) (<[10 := 2048]> ∅)
      [[Shard 10 "metrics" (Datetime 2020 1 1 0 0 0) (Datetime 2020 2 1 0 0 0)]]
    = Returns rep' /\
    total_size rep' = 2048 /\
    [PerDatabase "2.0 KB" "metrics"; Total "2.0 KB"] = (lines ++ stdout rep')%list /\
    forallb (fun l => negb (is_total_line l)) lines = true.
Proof.
  apply (full_only_adds_lines exact_log1024_floor None
           (Datetime 2020 1 1 0 0 0) (Datetime 2020 12 31 0 0 0) (<[10 := 2048]> ∅)
           [[Shard 10 "metrics" (Datetime 2020 1 1 0 0 0) (Datetime 2020 2 1 0 0 0)]]
           (LoopState (Some "metrics") 2048
              [PerDatabase "2.0 KB" "metrics"; Total "2.0 KB"]
              [DatabaseSize "metrics" 2048] []));
    reflexivity.
Defined.
